(** * HAUS voice search: a shallow embedding of the TypeScript sources

    The development follows the repository file by file:

    - [JS]                      the fragment of JavaScript the sources rely on
                                (parsed JSON values, truthiness, [Set],
                                [String.prototype.trim], [Math]);
    - [VoiceSearch]             src/components/voice-search/VoiceSearch.tsx;
    - [EnhancedVoiceSearch],
      [InstantVoiceSearch]      src/components/universal-voice-search;
    - [OpenAIRealtimeService]   lib/services/OpenAIRealtimeService;
    - [EnhancedRealtimeVoiceSearch]
                                the settings handlers of the realtime UI;
    - [Types]                   lib/types ([generateMockResults]);
    - [VoiceProcessRoute]       app/api/voice/process/route.ts ([POST]);
    - [PriceRangeSlider]        src/components/voice-search/PriceRangeSlider.tsx.

    JavaScript numbers are modelled as rationals ([Q]); NaN and the
    infinities are outside the model.  A string is the sequence of its code
    units.  React state is passed explicitly; the values a handler captured
    when it was created (its closure) are separate arguments, because the
    sources read both the captured [searchParams] and the live state that
    [setSearchParams] hands to an updater. *)

From Stdlib Require Import QArith Qround Lqa Ascii String.
From stdpp Require Import gmap strings list pretty.

Close Scope Q_scope.
Set Warnings "-register-all".

(* ===================================================================== *)
(** * JavaScript fragment                                                 *)
(* ===================================================================== *)

Module JS.

(** A value produced by [JSON.parse] / [response.json()].  [undefined] is
    not a JSON value: a property read that yields [undefined] is [None]. *)
Inductive Json : Type :=
  | JNull
  | JBool (b : bool)
  | JNum (q : Q)
  | JStr (s : string)
  | JArr (items : list Json)
  | JObj (fields : list (string * Json)).

(** ToBoolean. *)
Definition truthy (j : Json) : bool :=
  match j with
  | JNull => false
  | JBool b => b
  | JNum q => negb (Qeq_bool q 0)
  | JStr s => negb (String.eqb s "")
  | JArr _ | JObj _ => true
  end.

Definition truthy_opt (v : option Json) : bool :=
  match v with Some j => truthy j | None => false end.

(** First binding of [k] in a property list. *)
Fixpoint assoc (k : string) (fields : list (string * Json)) : option Json :=
  match fields with
  | [] => None
  | (k', v) :: rest => if String.eqb k k' then Some v else assoc k rest
  end.

(** [o[k]] for a property name [k] that no built-in prototype defines
    ([value], [sourceText], [query], ...): only a plain object can carry it. *)
Definition get (o : Json) (k : string) : option Json :=
  match o with
  | JObj fields => assoc k fields
  | _ => None
  end.

(** Names of the own enumerable properties of an object, in the order a
    [for ... in] loop visits them (each name once). *)
Fixpoint own_keys (fields : list (string * Json)) : list string :=
  match fields with
  | [] => []
  | (k, _) :: rest =>
      k :: List.filter (fun k' => negb (String.eqb k k')) (own_keys rest)
  end.

(** Property names every ordinary object inherits from [Object.prototype];
    the [in] operator answers [true] for them on any object literal. *)
Definition Object_prototype_keys : list string :=
  [ "constructor"; "__defineGetter__"; "__defineSetter__"; "hasOwnProperty";
    "__lookupGetter__"; "__lookupSetter__"; "isPrototypeOf";
    "propertyIsEnumerable"; "toString"; "valueOf"; "__proto__";
    "toLocaleString" ].

Definition string_in (k : string) (l : list string) : bool :=
  existsb (String.eqb k) l.

(** SameValueZero on two distinct occurrences of parsed values: primitives
    compare by value, arrays and objects by identity (never equal here). *)
Definition sameValueZero (a b : Json) : bool :=
  match a, b with
  | JNull, JNull => true
  | JBool x, JBool y => Bool.eqb x y
  | JNum x, JNum y => Qeq_bool x y
  | JStr x, JStr y => String.eqb x y
  | _, _ => false
  end.

Definition Set_has (s : list Json) (x : Json) : bool :=
  existsb (sameValueZero x) s.

(** [new Set(items)] as the list of its elements in insertion order. *)
Definition Set_of_list (items : list Json) : list Json :=
  fold_left (fun acc x => if Set_has acc x then acc else acc ++ [x]) items [].

Fixpoint chars (s : string) : list Json :=
  match s with
  | EmptyString => []
  | String c rest => JStr (String c EmptyString) :: chars rest
  end.

(** [new Set(v)]: arrays and strings are iterable, anything else raises a
    TypeError ([None]). *)
Definition new_Set (v : Json) : option (list Json) :=
  match v with
  | JArr items => Some (Set_of_list items)
  | JStr s => Some (Set_of_list (chars s))
  | _ => None
  end.

(** White space removed by [String.prototype.trim], among code units
    below 256. *)
Definition is_whitespace (c : ascii) : bool :=
  let n := nat_of_ascii c in
  (n =? 9)%nat || (n =? 10)%nat || (n =? 11)%nat || (n =? 12)%nat
  || (n =? 13)%nat || (n =? 32)%nat || (n =? 160)%nat.

Fixpoint trimStart (s : string) : string :=
  match s with
  | EmptyString => EmptyString
  | String c rest => if is_whitespace c then trimStart rest else s
  end.

Definition trim (s : string) : string :=
  String.rev (trimStart (String.rev (trimStart s))).

(** Lower case of a code unit below 256: the ASCII capitals and the
    Latin-1 capitals (all of 192-222 but the multiplication sign). *)
Definition lower (c : ascii) : ascii :=
  let n := nat_of_ascii c in
  if ((65 <=? n)%nat && (n <=? 90)%nat)
     || ((192 <=? n)%nat && (n <=? 222)%nat && negb (n =? 215)%nat)
  then ascii_of_nat (n + 32) else c.

Fixpoint toLowerCase (s : string) : string :=
  match s with
  | EmptyString => EmptyString
  | String c rest => String (lower c) (toLowerCase rest)
  end.

(** [s.substring(n)] for [0 <= n]. *)
Fixpoint substring_from (n : nat) (s : string) : string :=
  match n, s with
  | O, _ => s
  | S n', String _ rest => substring_from n' rest
  | S _, EmptyString => EmptyString
  end.

(** What [await fetch(...)] followed by [await response.json()] can yield:
    the request fails, or a response arrives with its [ok] flag and a body
    that parses ([Some]) or does not ([None]). *)
Inductive FetchOutcome : Type :=
  | fetch_rejected
  | fetch_response (ok : bool) (json : option Json).

Definition Math_max (a b : Q) : Q := if Qle_bool a b then b else a.
Definition Math_min (a b : Q) : Q := if Qle_bool a b then a else b.
Definition Math_floor (x : Q) : Z := Qfloor x.
(** [Math.round] rounds half up. *)
Definition Math_round (x : Q) : Z := Qfloor (x + (1 # 2))%Q.

End JS.

(* ===================================================================== *)
(** * src/components/voice-search/VoiceSearch.tsx                         *)
(* ===================================================================== *)

Module VoiceSearch.
Import JS.

Inductive SearchStatus : Type :=
  | Demo | Idle | Listening | Processing | Confirming | Done.

(** A [SearchParams] object at run time: its own properties whose value is
    not [undefined].  The sources store [param.value] through an [any]
    cast, so a property holds an arbitrary parsed value. *)
Abbreviation SearchParams := (gmap string Json).

(** The object literal [initialSearchParams]: property names with their
    initial value ([None] is [undefined]). *)
Definition initialSearchParams : list (string * option Json) :=
  [ ("location", None); ("locationRadiusKm", None); ("propertyType", None);
    ("listingType", None); ("priceMin", None); ("priceMax", None);
    ("bedroomsMin", None); ("bathroomsMin", None); ("sizeMetersMin", None);
    ("sizeMetersMax", None); ("style", None); ("styleImage", None);
    ("amenities", Some (JArr [])); ("tags", Some (JArr [])) ].

(** [key in initialSearchParams]: an own property of the literal, or a name
    inherited from [Object.prototype]. *)
Definition key_in_initialSearchParams (key : string) : bool :=
  string_in key (initialSearchParams.*1) || string_in key Object_prototype_keys.

(** The properties of an object literal that a spread copies with a defined
    value. *)
Fixpoint object_of (literal : list (string * option Json)) : SearchParams :=
  match literal with
  | [] => ∅
  | (k, Some v) :: rest => <[k := v]> (object_of rest)
  | (k, None) :: rest => delete k (object_of rest)
  end.

Record ConfigEntry : Type := { key : string; label : string }.

Definition AMENITY_CONFIG : list ConfigEntry :=
  [ {| key := "Pool"; label := "Pool" |};
    {| key := "Pets Allowed"; label := "Pet-Friendly" |};
    {| key := "Garage"; label := "Garage" |};
    {| key := "Garden"; label := "Garden" |};
    {| key := "Gym"; label := "Gym" |};
    {| key := "Balcony"; label := "Balcony" |};
    {| key := "Waterfront"; label := "Waterfront" |};
    {| key := "Sea View"; label := "Sea View" |};
    {| key := "Mountain View"; label := "Mountain View" |};
    {| key := "City View"; label := "City View" |};
    {| key := "Hot Tub"; label := "Hot Tub" |};
    {| key := "Fireplace"; label := "Fireplace" |};
    {| key := "Laundry"; label := "In-unit Laundry" |};
    {| key := "Furnished"; label := "Furnished" |};
    {| key := "Dishwasher"; label := "Dishwasher" |};
    {| key := "Hardwood Floors"; label := "Hardwood Floors" |};
    {| key := "Wheelchair Accessible"; label := "Accessible" |};
    {| key := "EV Charging"; label := "EV Charging" |};
    {| key := "Gated Community"; label := "Gated" |};
    {| key := "Security System"; label := "Security" |};
    {| key := "Solar Panels"; label := "Solar Panels" |};
    {| key := "Wine Cellar"; label := "Wine Cellar" |};
    {| key := "Home Office"; label := "Home Office" |};
    {| key := "High Ceilings"; label := "High Ceilings" |};
    {| key := "Central Heating"; label := "Heating" |};
    {| key := "Elevator"; label := "Elevator" |};
    {| key := "Fenced Yard"; label := "Fenced Yard" |};
    {| key := "Good School District"; label := "Good School District" |};
    {| key := "Outdoor Entertaining"; label := "Outdoor Entertaining" |};
    {| key := "New Build"; label := "New Build" |};
    {| key := "Earthquake Strengthened"; label := "Earthquake Strengthened" |} ].

Definition PERMANENT_TAG_CONFIG : list ConfigEntry :=
  [ {| key := "new"; label := "New" |};
    {| key := "premium"; label := "Premium" |};
    {| key := "open-house"; label := "Open House" |};
    {| key := "auction"; label := "Auction" |} ].

(** [config.some(c => c.key === a)] for a string [a]. *)
Definition config_has (config : list ConfigEntry) (a : string) : bool :=
  existsb (fun c => String.eqb (key c) a) config.

(** [value.filter(a => config.some(c => c.key === a) && !existing.has(a))]:
    [===] against a string key rejects every element that is not a string,
    so the elements kept are strings. *)
Fixpoint filter_new (config : list ConfigEntry) (existing : list Json)
    (value : list Json) : list string :=
  match value with
  | [] => []
  | a :: rest =>
      match a with
      | JStr s =>
          if config_has config s && negb (Set_has existing a)
          then s :: filter_new config existing rest
          else filter_new config existing rest
      | _ => filter_new config existing rest
      end
  end.

(** [updatedParamsPartial]: its own properties, and the prototype that an
    assignment to [__proto__] installs in place of [Object.prototype]. *)
Record Partial : Type := { own : SearchParams; proto : option Json }.

(** [(p as any)[k] = v]. *)
Definition Partial_set (k : string) (v : Json) (p : Partial) : Partial :=
  if String.eqb k "__proto__" then
    match v with
    | JObj _ | JArr _ => {| own := own p; proto := Some v |}
    | _ => p
    end
  else {| own := <[k := v]> (own p); proto := proto p |}.

(** [p.k], through the prototype chain. *)
Definition Partial_get (p : Partial) (k : string) : option Json :=
  match own p !! k with
  | Some v => Some v
  | None => match proto p with Some o => get o k | None => None end
  end.

Record Acc : Type := {
  updatedParamsPartial : Partial;
  newGlowing : list string;
  newlyHighlighted : list string
}.

Definition Acc_init : Acc :=
  {| updatedParamsPartial := {| own := ∅; proto := None |};
     newGlowing := []; newlyHighlighted := [] |}.

(** [new Set(searchParams[k] || [])]; [None] when the constructor throws. *)
Definition existing_set (searchParams : SearchParams) (k : string)
    : option (list Json) :=
  match searchParams !! k with
  | Some v => if truthy v then new_Set v else Some []
  | None => Some []
  end.

(** The [amenities] and [tags] branches of the loop body; [None] is a
    TypeError (the set constructor, or [.filter] on a value that is not an
    array). *)
Definition merge_list (config : list ConfigEntry) (k : string)
    (searchParams : SearchParams) (value : Json) (acc : Acc) : option Acc :=
  match existing_set searchParams k with
  | None => None
  | Some existing =>
      match value with
      | JArr items =>
          let newItems := filter_new config existing items in
          if (0 <? length newItems)%nat then
            Some {| updatedParamsPartial :=
                      Partial_set k (JArr (existing ++ (JStr <$> newItems)))
                                  (updatedParamsPartial acc);
                    newGlowing := newGlowing acc ++ newItems;
                    newlyHighlighted := newlyHighlighted acc |}
          else Some acc
      | _ => None
      end
  end.

(** [sourceText.filter((s: string) => s && s.trim().length > 0)]; a truthy
    element that is not a string has no [trim] method: TypeError. *)
Fixpoint filter_sourceText (items : list Json) : option (list string) :=
  match items with
  | [] => Some []
  | s :: rest =>
      match s with
      | JStr t =>
          match filter_sourceText rest with
          | Some kept =>
              if truthy s && (0 <? String.length (trim t))%nat
              then Some (t :: kept) else Some kept
          | None => None
          end
      | _ => if truthy s then None else filter_sourceText rest
      end
  end.

(** One iteration of [for (const key in responseData)]. *)
Definition merge_key (searchParams : SearchParams)
    (responseData : list (string * Json)) (acc : Acc) (k : string)
    : option Acc :=
  if key_in_initialSearchParams k then
    match assoc k responseData with
    | Some param =>
        if truthy param then
          match get param "value" with
          | None | Some JNull => Some acc
          | Some value =>
              let branch :=
                if String.eqb k "amenities" then
                  merge_list AMENITY_CONFIG "amenities" searchParams value acc
                else if String.eqb k "tags" then
                  merge_list PERMANENT_TAG_CONFIG "tags" searchParams value acc
                else
                  Some {| updatedParamsPartial :=
                            Partial_set k value (updatedParamsPartial acc);
                          newGlowing := newGlowing acc ++ [k];
                          newlyHighlighted := newlyHighlighted acc |} in
              match branch with
              | None => None
              | Some acc1 =>
                  match get param "sourceText" with
                  | Some (JArr items) =>
                      match filter_sourceText items with
                      | Some kept =>
                          Some {| updatedParamsPartial := updatedParamsPartial acc1;
                                  newGlowing := newGlowing acc1;
                                  newlyHighlighted := newlyHighlighted acc1 ++ kept |}
                      | None => None
                      end
                  | _ => Some acc1
                  end
              end
          end
        else Some acc
    | None => Some acc
    end
  else Some acc.

Fixpoint for_in (searchParams : SearchParams)
    (responseData : list (string * Json)) (keys : list string) (acc : Acc)
    : option Acc :=
  match keys with
  | [] => Some acc
  | k :: rest =>
      match merge_key searchParams responseData acc k with
      | Some acc' => for_in searchParams responseData rest acc'
      | None => None
      end
  end.

(** The whole loop of lines 406-429 over a response object. *)
Definition merge (searchParams : SearchParams)
    (responseData : list (string * Json)) : option Acc :=
  for_in searchParams responseData (own_keys responseData) Acc_init.

(** The own enumerable properties a [for ... in] finds on a parsed value:
    the fields of an object, the indices of an array or a string, nothing
    on [null], a boolean or a number. *)
Definition enumerable (responseData : Json) : list (string * Json) :=
  match responseData with
  | JObj fields => fields
  | JArr items => imap (fun i v => (pretty i, v)) items
  | JStr s => imap (fun i v => (pretty i, v)) (chars s)
  | _ => []
  end.

(** [[...new Set(l)]] on strings: first occurrences, in order. *)
Definition unique (l : list string) : list string :=
  fold_left (fun acc x => if string_in x acc then acc else acc ++ [x]) l [].

(** Component state: the [useState] cells and refs of [VoiceSearch], and
    the parent's [searchParams] cell that [setSearchParams] updates. *)
Record Component : Type := {
  status : SearchStatus;
  isDemoMode : bool;
  animatedText : string;
  transcript : string;
  glowingParams : gset string;
  highlightedText : list string;
  recognitionRef : bool;          (* recognitionRef.current !== null *)
  lastFinalTranscript : string;   (* lastFinalTranscript.current *)
  searchParamsState : SearchParams
}.

(** What a handler captured from the render that created it. *)
Record Closure : Type := {
  searchParams : SearchParams;    (* the [searchParams] prop *)
  c_isDemoMode : bool;
  c_status : SearchStatus
}.

Inductive Effect : Type :=
  | console_error (msg : string)
  | fetch_voice_process (query : string) (currentParams : SearchParams)
  | recognition_start
  | recognition_stop
  (* [generateMockResults(params)], delivered to [onResults] after 800 ms *)
  | onResults_mock (params : SearchParams).

Definition set_status (s : SearchStatus) (st : Component) : Component :=
  {| status := s; isDemoMode := isDemoMode st; animatedText := animatedText st;
     transcript := transcript st; glowingParams := glowingParams st;
     highlightedText := highlightedText st; recognitionRef := recognitionRef st;
     lastFinalTranscript := lastFinalTranscript st;
     searchParamsState := searchParamsState st |}.

Definition resting_status (st : Component) : SearchStatus :=
  if recognitionRef st then Listening else Idle.

Definition switchToRealSearch (c : Closure) (st : Component) : Component :=
  if c_isDemoMode c then
    {| status := status st; isDemoMode := false; animatedText := "";
       transcript := transcript st; glowingParams := ∅;
       highlightedText := highlightedText st; recognitionRef := recognitionRef st;
       lastFinalTranscript := lastFinalTranscript st;
       searchParamsState := searchParamsState st |}
  else st.

(** [prev => ({ ...initialSearchParams, tags: prev.tags })]. *)
Definition reset_keeping_tags (prev : SearchParams) : SearchParams :=
  match prev !! "tags" with
  | Some t => <["tags" := t]> (object_of initialSearchParams)
  | None => delete "tags" (object_of initialSearchParams)
  end.

Definition handleSearch (c : Closure) (st : Component)
    : Component * list Effect :=
  (set_status Done st,
   (if recognitionRef st then [recognition_stop] else [])
   ++ [onResults_mock (searchParams c)]).

Definition is_command (text : string) : bool :=
  string_in text
    ["search"; "let's go"; "lets go"; "find"; "ok"; "find my house";
     "find my haus"].

(** [processTranscript] up to its [await]: the state, the effects, and
    whether a request is now pending. *)
Definition processTranscript_start (c : Closure) (text : string)
    (st : Component) : Component * list Effect * bool :=
  if is_command (toLowerCase (trim text)) then (handleSearch c st, false)
  else if (String.length (trim text) <? 3)%nat then (st, [], false)
  else (set_status Processing st,
        [fetch_voice_process text (searchParams c)], true).

(** [processTranscript] after the [await]: the merge and the [catch]. *)
Definition processTranscript_resume (c : Closure) (outcome : FetchOutcome)
    (st : Component) : Component * list Effect :=
  let caught :=
    (set_status (resting_status st) st,
     [console_error "Error processing transcript:"]) in
  match outcome with
  | fetch_response true (Some responseData) =>
      match merge (searchParams c) (enumerable responseData) with
      | Some acc =>
          let upd := updatedParamsPartial acc in
          let glowing :=
            newGlowing acc ++
            (if truthy_opt (Partial_get upd "priceMin")
                || truthy_opt (Partial_get upd "priceMax")
             then ["priceSlider"] else []) in
          if (0 <? size (own upd))%nat then
            ({| status := Confirming; isDemoMode := isDemoMode st;
                animatedText := animatedText st; transcript := transcript st;
                glowingParams := glowingParams st ∪ list_to_set glowing;
                highlightedText :=
                  unique (highlightedText st ++ newlyHighlighted acc);
                recognitionRef := recognitionRef st;
                lastFinalTranscript := lastFinalTranscript st;
                searchParamsState := own upd ∪ searchParamsState st |}, [])
          else (set_status (resting_status st) st, [])
      | None => caught
      end
  | _ => caught
  end.

(** An entry of [event.results]. *)
Record SpeechRecognitionResult : Type := {
  isFinal : bool;
  result_transcript : string      (* event.results[i][0].transcript *)
}.

Definition final_transcript (results : list SpeechRecognitionResult) : string :=
  fold_left (fun s r => if isFinal r then s +:+ result_transcript r else s)
            results "".

Definition interim_transcript (results : list SpeechRecognitionResult) : string :=
  fold_left (fun s r => if isFinal r then s else s +:+ result_transcript r)
            results "".

(** [recognition.onresult] up to the call of [processTranscript]: the state
    and the text handed to [processTranscript], if any. *)
Definition onresult_chunk (c : Closure) (results : list SpeechRecognitionResult)
    (st : Component) : Component * option string :=
  let st1 := switchToRealSearch c st in
  let final := final_transcript results in
  let st2 :=
    {| status := status st1; isDemoMode := isDemoMode st1;
       animatedText := animatedText st1;
       transcript := final +:+ interim_transcript results;
       glowingParams := glowingParams st1;
       highlightedText := highlightedText st1;
       recognitionRef := recognitionRef st1;
       lastFinalTranscript := lastFinalTranscript st1;
       searchParamsState := searchParamsState st1 |} in
  if negb (String.eqb final "")
     && negb (String.eqb final (lastFinalTranscript st2)) then
    let newChunk :=
      substring_from (String.length (lastFinalTranscript st2)) final in
    let st3 :=
      {| status := status st2; isDemoMode := isDemoMode st2;
         animatedText := animatedText st2; transcript := transcript st2;
         glowingParams := glowingParams st2;
         highlightedText := highlightedText st2;
         recognitionRef := recognitionRef st2;
         lastFinalTranscript := final;
         searchParamsState := searchParamsState st2 |} in
    if negb (String.eqb (trim newChunk) "") then (st3, Some (trim newChunk))
    else (st3, None)
  else (st2, None).

Definition onresult (c : Closure) (results : list SpeechRecognitionResult)
    (st : Component) : Component * list Effect * bool :=
  match onresult_chunk c results st with
  | (st', Some text) => processTranscript_start c text st'
  | (st', None) => (st', [], false)
  end.

(** [handleStartListening]; [supported] is [SpeechRecognition !== null]. *)
Definition handleStartListening (c : Closure) (supported : bool)
    (st : Component) : Component * list Effect :=
  let st1 :=
    if c_isDemoMode c then switchToRealSearch c st
    else
      match c_status c with
      | Done | Idle | Confirming =>
          {| status := status st; isDemoMode := isDemoMode st;
             animatedText := animatedText st; transcript := transcript st;
             glowingParams := ∅; highlightedText := highlightedText st;
             recognitionRef := recognitionRef st;
             lastFinalTranscript := lastFinalTranscript st;
             searchParamsState := reset_keeping_tags (searchParamsState st) |}
      | _ => st
      end in
  if negb supported then
    (st1, [console_error "Speech Recognition not supported."])
  else if recognitionRef st1 then (st1, [])
  else
    ({| status := Listening; isDemoMode := isDemoMode st1;
        animatedText := animatedText st1; transcript := "";
        glowingParams := glowingParams st1; highlightedText := [];
        recognitionRef := true; lastFinalTranscript := "";
        searchParamsState := searchParamsState st1 |},
     [recognition_start]).

(** [handleCancel]: the recognition session, if any, is detached from its
    [onend] handler and stopped. *)
Definition handleCancel (c : Closure) (st : Component)
    : Component * list Effect :=
  let st1 := switchToRealSearch c st in
  ({| status := Idle; isDemoMode := isDemoMode st1;
      animatedText := animatedText st1; transcript := "";
      glowingParams := ∅; highlightedText := [];
      recognitionRef := false; lastFinalTranscript := "";
      searchParamsState := reset_keeping_tags (searchParamsState st1) |},
   if recognitionRef st then [recognition_stop] else []).

(** A listening session: the recognition events in order, all handled by
    the [onresult] closure installed by [handleStartListening]; the result
    lists the texts handed to [processTranscript] and the effects. *)
Fixpoint session (c : Closure) (events : list (list SpeechRecognitionResult))
    (st : Component) : Component * list string * list Effect :=
  match events with
  | [] => (st, [], [])
  | e :: rest =>
      let call := (onresult_chunk c e st).2 in
      let '(st', effects, _) := onresult c e st in
      let '(st'', calls, effects') := session c rest st' in
      (st'', option_list call ++ calls, effects ++ effects')
  end.

(** The queries of the extraction requests among some effects. *)
Definition fetch_queries (effects : list Effect) : list string :=
  omap (fun e => match e with
                 | fetch_voice_process query _ => Some query
                 | _ => None
                 end) effects.

(** [processTranscript] sends a text to the extraction endpoint unless it
    is a search command or shorter than three characters. *)
Definition extracted (text : string) : bool :=
  negb (is_command (toLowerCase (trim text)))
  && negb (String.length (trim text) <? 3)%nat.

(** A key the merge has no reason to write for this response: the response
    has no such property, or the loop's [in initialSearchParams] test
    rejects the key, or the property carries no [value] (the property is not
    an object with that field, or the field is [null]). *)
Definition untouched (responseData : list (string * Json)) (k : string) : Prop :=
  assoc k responseData = None
  \/ key_in_initialSearchParams k = false
  \/ exists param, assoc k responseData = Some param
       /\ (get param "value" = None \/ get param "value" = Some JNull).

(** What a newly finalized chunk contributes to the calls of
    [processTranscript]: its trimmed text, unless that is empty. *)
Definition submitted (chunk : string) : option string :=
  if String.eqb (trim chunk) "" then None else Some (trim chunk).

(** [grows last events chunks final]: starting from the transcript [last],
    every event's final transcript extends that of the event before it by
    the next chunk, and [final] is the last one. *)
Inductive grows
    : string -> list (list SpeechRecognitionResult) -> list string -> string -> Prop :=
  | grows_nil last : grows last [] [] last
  | grows_cons last e chunk rest chunks final :
      final_transcript e = last +:+ chunk ->
      grows (final_transcript e) rest chunks final ->
      grows last (e :: rest) (chunk :: chunks) final.

(** Concrete inputs for the examples. *)
Definition sample_state : Component :=
  {| status := Processing; isDemoMode := false; animatedText := "";
     transcript := "a villa in Sydney"; glowingParams := ∅;
     highlightedText := ["Sydney"]; recognitionRef := true;
     lastFinalTranscript := "a villa in Sydney";
     searchParamsState := {[ "location" := JStr "Sydney" ]} |}.

Definition sample_closure : Closure :=
  {| searchParams := {[ "location" := JStr "Sydney" ]};
     c_isDemoMode := false; c_status := Listening |}.



Definition pool_twice : Json :=
  JObj [("amenities",
         JObj [("value", JArr [JStr "Pool"; JStr "Pool"]);
               ("sourceText", JArr [JStr "pool"])])].

Definition price_only : Json :=
  JObj [("priceMax", JObj [("value", JNum 900000); ("sourceText", JArr [JStr "900k"])]);
        ("bedroomsMin", JObj [("value", JNull)])].

Definition inherited_key : Json :=
  JObj [("toString", JObj [("value", JStr "x")])].

Definition with_pool : Json :=
  JObj [("amenities", JObj [("value", JArr [JStr "Pool"])])].

Definition with_gym : Json :=
  JObj [("amenities", JObj [("value", JArr [JStr "Gym"])])].

Definition two_events : list (list SpeechRecognitionResult) :=
  [ [ {| isFinal := true; result_transcript := "find a house " |};
      {| isFinal := false; result_transcript := "in" |} ];
    [ {| isFinal := true; result_transcript := "find a house " |};
      {| isFinal := true; result_transcript := "in Sydney" |} ] ].

Definition listening_state : Component :=
  {| status := Listening; isDemoMode := false; animatedText := "";
     transcript := ""; glowingParams := ∅; highlightedText := [];
     recognitionRef := true; lastFinalTranscript := "";
     searchParamsState := ∅ |}.

(** The closure [handleStartListening] installs on a fresh search. *)
Definition listening_closure : Closure :=
  {| searchParams := ∅; c_isDemoMode := false; c_status := Idle |}.

(** [generateHistogramData(length)] on the [length] values that
    [Math.random()] returned.  The loop smooths the array in place: each
    step reads the value that the step before it wrote. *)
Fixpoint smooth (previous : Q) (data : list Q) : list Q :=
  match data with
  | current :: (next :: _) as rest =>
      let smoothed := ((previous + current + next) / 3)%Q in
      smoothed :: smooth smoothed rest
  | _ => data
  end.

Definition generateHistogramData (data : list Q) : list Q :=
  match data with
  | first :: rest => first :: smooth first rest
  | [] => []
  end.

(** [prev.tags || []]. *)
Definition tags_or_empty (prev : SearchParams) : Json :=
  match prev !! "tags" with
  | Some t => if truthy t then t else JArr []
  | None => JArr []
  end.

(** [currentTags.delete(tagKey)]. *)
Definition Set_delete (s : list Json) (x : Json) : list Json :=
  List.filter (fun y => negb (sameValueZero x y)) s.

(** The updater that [handleToggleTag] hands to [setSearchParams]; [None]
    when [new Set] is given a value that cannot be iterated. *)
Definition toggle_tag (tagKey : string) (prev : SearchParams)
    : option SearchParams :=
  match new_Set (tags_or_empty prev) with
  | Some currentTags =>
      Some (<["tags" :=
               JArr (if Set_has currentTags (JStr tagKey)
                     then Set_delete currentTags (JStr tagKey)
                     else currentTags ++ [JStr tagKey])]> prev)
  | None => None
  end.

Definition handleToggleTag (c : Closure) (tagKey : string) (st : Component)
    : option Component :=
  let st := switchToRealSearch c st in
  match toggle_tag tagKey (searchParamsState st) with
  | Some params =>
      Some {| status := status st; isDemoMode := isDemoMode st;
              animatedText := animatedText st; transcript := transcript st;
              glowingParams := glowingParams st ∪ {[tagKey]};
              highlightedText := highlightedText st;
              recognitionRef := recognitionRef st;
              lastFinalTranscript := lastFinalTranscript st;
              searchParamsState := params |}
  | None => None
  end.

Definition handlePriceChange (c : Closure) (newRange : Q * Q) (st : Component)
    : Component :=
  let st := switchToRealSearch c st in
  {| status := status st; isDemoMode := isDemoMode st;
     animatedText := animatedText st; transcript := transcript st;
     glowingParams := glowingParams st ∪ {["priceSlider"]};
     highlightedText := highlightedText st;
     recognitionRef := recognitionRef st;
     lastFinalTranscript := lastFinalTranscript st;
     searchParamsState :=
       <["priceMax" := JNum newRange.2]>
         (<["priceMin" := JNum newRange.1]> (searchParamsState st)) |}.

(** [displayedSearchParams], from the state and the demo's own cell. *)
Definition displayedSearchParams (st : Component)
    (demoSearchParams : SearchParams) : SearchParams :=
  if isDemoMode st then demoSearchParams else searchParamsState st.

(** [v ?? d]. *)
Definition nullish_or (v : option Json) (d : Json) : Json :=
  match v with
  | Some JNull | None => d
  | Some j => j
  end.

Definition isRent (displayed : SearchParams) : bool :=
  match displayed !! "listingType" with
  | Some (JStr s) => String.eqb s "For Rent" || String.eqb s "For Lease"
  | _ => false
  end.

(** The [value] handed to the price slider. *)
Definition priceValue (displayed : SearchParams) : Json * Json :=
  (nullish_or (displayed !! "priceMin")
     (JNum (if isRent displayed then 500 else 100000)),
   nullish_or (displayed !! "priceMax")
     (JNum (if isRent displayed then 15000 else 10000000))).

Definition demo_closure : Closure :=
  {| searchParams := object_of initialSearchParams; c_isDemoMode := true;
     c_status := Demo |}.

Definition demo_state : Component :=
  {| status := Demo; isDemoMode := true; animatedText := "3 bed";
     transcript := ""; glowingParams := {["bedrooms"]}; highlightedText := [];
     recognitionRef := false; lastFinalTranscript := "";
     searchParamsState := <["tags" := JArr [JStr "open-house"]]>
                            (object_of initialSearchParams) |}.
End VoiceSearch.

(* ===================================================================== *)
(** * src/components/universal-voice-search/EnhancedVoiceSearch.tsx       *)
(* ===================================================================== *)

Module EnhancedVoiceSearch.
Import JS.

Inductive VoiceState : Type :=
  | Initializing | Listening | Processing | Confirming | Complete.

Record Component : Type := {
  state : VoiceState;
  transcript : string;
  finalTranscript : string;
  isListening : bool;
  showConfirm : bool
}.

Inductive Effect : Type :=
  | console_error (msg : string)
  | onClose
  | fetch_voice_process (query : string)
  (* [generateMockResults(data)], delivered to [onResults] after 800 ms *)
  | onResults_mock (params : Json).

Definition set_state (v : VoiceState) (st : Component) : Component :=
  {| state := v; transcript := transcript st;
     finalTranscript := finalTranscript st; isListening := isListening st;
     showConfirm := showConfirm st |}.

(** [processTranscript] up to its [await]. *)
Definition processTranscript_start (st : Component)
    : Component * list Effect * bool :=
  let textToProcess := trim (finalTranscript st) in
  if (String.length textToProcess <? 5)%nat
  then (set_state Processing st, [onClose], false)
  else (set_state Processing st, [fetch_voice_process textToProcess], true).

(** [processTranscript] after the [await]: [response.ok] is never read. *)
Definition processTranscript_resume (outcome : FetchOutcome) (st : Component)
    : Component * list Effect :=
  match outcome with
  | fetch_response _ (Some data) => (set_state Complete st, [onResults_mock data])
  | _ => (st, [console_error "Error processing transcript:"; onClose])
  end.


End EnhancedVoiceSearch.

(* ===================================================================== *)
(** * src/components/universal-voice-search/InstantVoiceSearch.tsx        *)
(* ===================================================================== *)

Module InstantVoiceSearch.
Import JS.

Inductive VoiceState : Type := Initializing | Listening | Processing | Complete.

Record Component : Type := {
  state : VoiceState;
  liveTranscript : string;
  finalTranscript : string;
  isListening : bool
}.

Inductive Effect : Type :=
  | console_error (msg : string)
  | onClose
  | fetch_voice_process (query : string)
  | onResults_mock (params : Json).

Definition set_state (v : VoiceState) (st : Component) : Component :=
  {| state := v; liveTranscript := liveTranscript st;
     finalTranscript := finalTranscript st; isListening := isListening st |}.

(** [finalTranscript.trim() || liveTranscript.trim()]. *)
Definition textToProcess (st : Component) : string :=
  if negb (String.eqb (trim (finalTranscript st)) "")
  then trim (finalTranscript st) else trim (liveTranscript st).

Definition processCompleteTranscript_start (st : Component)
    : Component * list Effect * bool :=
  if (String.length (textToProcess st) <? 5)%nat
  then (set_state Processing st, [onClose], false)
  else (set_state Processing st, [fetch_voice_process (textToProcess st)], true).

Definition processCompleteTranscript_resume (outcome : FetchOutcome)
    (st : Component) : Component * list Effect :=
  match outcome with
  | fetch_response _ (Some data) => (set_state Complete st, [onResults_mock data])
  | _ => (st, [console_error "Error processing transcript:"; onClose])
  end.


(** The state of the first render, which the handlers of the recognition
    started by the mount effect read. *)
Definition mount_render : Component :=
  {| state := Initializing; liveTranscript := ""; finalTranscript := "";
     isListening := false |}.

(** The two strings [recognition.onresult] builds from the results it is
    given, from [event.resultIndex] on. *)
Definition finalTranscriptUpdate
    (results : list VoiceSearch.SpeechRecognitionResult) : string :=
  fold_left (fun s r => if VoiceSearch.isFinal r
                        then s +:+ VoiceSearch.result_transcript r +:+ " "
                        else s) results "".

Definition interimTranscript
    (results : list VoiceSearch.SpeechRecognitionResult) : string :=
  fold_left (fun s r => if VoiceSearch.isFinal r then s
                        else s +:+ VoiceSearch.result_transcript r) results "".

Definition onstart (st : Component) : Component :=
  {| state := Listening; liveTranscript := liveTranscript st;
     finalTranscript := finalTranscript st; isListening := true |}.

(** [recognition.onresult]; [render] is the render the handler was created
    in, [st] the state its updates apply to.  The keyword chips and the
    silence timer are left out. *)
Definition onresult (render : Component)
    (results : list VoiceSearch.SpeechRecognitionResult) (st : Component)
    : Component :=
  let update := finalTranscriptUpdate results in
  {| state := state st;
     liveTranscript :=
       finalTranscript render +:+ update +:+ interimTranscript results;
     finalTranscript :=
       if String.eqb update "" then finalTranscript st
       else finalTranscript st +:+ update;
     isListening := isListening st |}.

Definition is_listening (v : VoiceState) : bool :=
  match v with Listening => true | _ => false end.

(** [recognition.onend]: the state, the effects, and whether a request is
    now pending. *)
Definition onend (render st : Component) : Component * list Effect * bool :=
  let st1 := {| state := state st; liveTranscript := liveTranscript st;
                finalTranscript := finalTranscript st; isListening := false |} in
  if is_listening (state render)
     && ((0 <? String.length (trim (finalTranscript render)))%nat
         || (0 <? String.length (trim (liveTranscript render)))%nat)
  then
    let '(_, effects, pending) := processCompleteTranscript_start render in
    (set_state Processing st1, effects, pending)
  else (st1, [], false).

(** [recognition.onerror] with [event.error]. *)
Definition onerror (error : string) (st : Component) : Component * list Effect :=
  ({| state := state st; liveTranscript := liveTranscript st;
      finalTranscript := finalTranscript st; isListening := false |},
   console_error "Speech recognition error:"
   :: (if String.eqb error "no-speech" then [onClose] else [])).

(** What can happen to the mounted component. *)
Inductive Event : Type :=
  | Started
  | Result (results : list VoiceSearch.SpeechRecognitionResult)
  | Ended
  | Failed (error : string)
  | Replied (outcome : FetchOutcome)
  | ClickClose.

Record Session : Type := {
  component : Component;
  pending : bool;                 (* a request awaits its reply *)
  effects : list Effect
}.

Definition step (render : Component) (s : Session) (e : Event) : Session :=
  let st := component s in
  match e with
  | Started =>
      {| component := onstart st; pending := pending s; effects := effects s |}
  | Result results =>
      {| component := onresult render results st; pending := pending s;
         effects := effects s |}
  | Ended =>
      let '(st', new, asked) := onend render st in
      {| component := st'; pending := pending s || asked;
         effects := effects s ++ new |}
  | Failed error =>
      let '(st', new) := onerror error st in
      {| component := st'; pending := pending s; effects := effects s ++ new |}
  | Replied outcome =>
      if pending s then
        let '(st', new) := processCompleteTranscript_resume outcome st in
        {| component := st'; pending := false; effects := effects s ++ new |}
      else s
  | ClickClose =>
      {| component := st; pending := pending s;
         effects := effects s ++ [onClose] |}
  end.

(** The component from its mount on: the recognition is created once, by
    the mount effect, in the first render. *)
Definition mounted (events : list Event) : Session :=
  fold_left (step mount_render) events
    {| component := mount_render; pending := false; effects := [] |}.

Definition is_request (e : Effect) : bool :=
  match e with fetch_voice_process _ => true | _ => false end.

Definition is_result (e : Effect) : bool :=
  match e with onResults_mock _ => true | _ => false end.
End InstantVoiceSearch.

(* ===================================================================== *)
(** * lib/services/OpenAIRealtimeService (src/unnamed/part_003)           *)
(* ===================================================================== *)

Module OpenAIRealtimeService.
Import JS.

(** [WebSocket.readyState]. *)
Inductive ReadyState : Type := CONNECTING | OPEN | CLOSING | CLOSED.

Record Service : Type := {
  ws : option ReadyState;         (* [None] is [this.ws === null] *)
  isConnected : bool;
  isRecording : bool;
  mediaStream : bool;             (* [this.mediaStream !== null] *)
  audioContext : bool;            (* [this.audioContext !== null] *)
  currentSessionId : option string;
  voice : string
}.

Inductive Effect : Type :=
  | ws_send (message : Json)
  | ws_close (code : nat) (reason : string)
  | console_warn (msg : string) (messageType : option Json)
  | tracks_stop
  | audioContext_close
  | emit (eventType : string).

Definition is_open (s : Service) : bool :=
  match ws s with Some OPEN => true | _ => false end.

(** [sendMessage(message)]. *)
Definition sendMessage (message : Json) (s : Service) : list Effect :=
  if is_open s then [ws_send message]
  else [console_warn "WebSocket not connected, cannot send message:"
                     (get message "type")].

Definition response_cancel : Json := JObj [("type", JStr "response.cancel")].

(** [interrupt()]. *)
Definition interrupt (s : Service) : Service * list Effect :=
  (s, if isConnected s then sendMessage response_cancel s else []).

(** [stopRecording()]. *)
Definition stopRecording (s : Service) : Service * list Effect :=
  if negb (isRecording s) || negb (mediaStream s) then (s, [])
  else ({| ws := ws s; isConnected := isConnected s; isRecording := false;
           mediaStream := false; audioContext := audioContext s;
           currentSessionId := currentSessionId s; voice := voice s |},
        [tracks_stop; emit "recording_stopped"]).

(** [disconnect()]. *)
Definition disconnect (s : Service) : Service * list Effect :=
  let '(s1, e1) := if isRecording s then stopRecording s else (s, []) in
  ({| ws := None; isConnected := false; isRecording := isRecording s1;
      mediaStream := false; audioContext := false;
      currentSessionId := None; voice := voice s1 |},
   e1 ++ (match ws s1 with
          | Some _ => [ws_close 1000 "Client disconnect"]
          | None => []
          end)
      ++ (if audioContext s1 then [audioContext_close] else [])
      ++ (if mediaStream s1 then [tracks_stop] else [])).

(** [sendSessionUpdate()]: the message is identified by its [type]; of the
    session settings only the configured voice varies. *)
Definition session_update (s : Service) : Json :=
  JObj [("type", JStr "session.update");
        ("session", JObj [("voice", JStr (voice s))])].

(** [changeVoice(voice)]. *)
Definition changeVoice (v : string) (s : Service) : Service * list Effect :=
  let s1 := {| ws := ws s; isConnected := isConnected s;
               isRecording := isRecording s; mediaStream := mediaStream s;
               audioContext := audioContext s;
               currentSessionId := currentSessionId s; voice := v |} in
  (s1, if isConnected s1 then sendMessage (session_update s1) s1 else []).

(** The public methods modelled here. *)
Inductive Operation : Type :=
  | Interrupt
  | ChangeVoice (v : string)
  | StopRecording
  | Disconnect.

Definition run (op : Operation) (s : Service) : Service * list Effect :=
  match op with
  | Interrupt => interrupt s
  | ChangeVoice v => changeVoice v s
  | StopRecording => stopRecording s
  | Disconnect => disconnect s
  end.



End OpenAIRealtimeService.

(* ===================================================================== *)
(** * src/components/universal-voice-search/EnhancedRealtimeVoiceSearch.tsx *)
(* ===================================================================== *)

Module EnhancedRealtimeVoiceSearch.

Inductive ConnectionState : Type :=
  | Connecting | Connected | Listening | Speaking | Processing | Error.

Record Component : Type := {
  state : ConnectionState;
  showSettings : bool;
  selectedVoice : string;
  selectedLanguage : string;
  apiKey : string;
  serviceRef : bool               (* serviceRef.current !== null *)
}.

(** The browser's [localStorage]: it outlives the component and the page. *)
Abbreviation Storage := (gmap string string).

Inductive Effect : Type :=
  | initializeService (key : string)
  | service_changeVoice (voice : string)
  | service_changeLanguage (language : string).

(** The mount effect ([useEffect(..., [])]). *)
Definition mount (localStorage : Storage) (st : Component)
    : Storage * Component * list Effect :=
  match localStorage !! "openai_api_key" with
  | Some storedApiKey =>
      if negb (String.eqb storedApiKey "") then
        (localStorage,
         {| state := state st; showSettings := showSettings st;
            selectedVoice := selectedVoice st;
            selectedLanguage := selectedLanguage st;
            apiKey := storedApiKey; serviceRef := serviceRef st |},
         [initializeService storedApiKey])
      else
        (localStorage,
         {| state := Error; showSettings := showSettings st;
            selectedVoice := selectedVoice st;
            selectedLanguage := selectedLanguage st;
            apiKey := apiKey st; serviceRef := serviceRef st |}, [])
  | None =>
      (localStorage,
       {| state := Error; showSettings := showSettings st;
          selectedVoice := selectedVoice st;
          selectedLanguage := selectedLanguage st;
          apiKey := apiKey st; serviceRef := serviceRef st |}, [])
  end.

Definition handleVoiceChange (voiceId : string) (localStorage : Storage)
    (st : Component) : Storage * Component * list Effect :=
  (localStorage,
   {| state := state st; showSettings := showSettings st;
      selectedVoice := voiceId; selectedLanguage := selectedLanguage st;
      apiKey := apiKey st; serviceRef := serviceRef st |},
   if serviceRef st then [service_changeVoice voiceId] else []).

Definition handleLanguageChange (languageCode : string) (localStorage : Storage)
    (st : Component) : Storage * Component * list Effect :=
  (localStorage,
   {| state := state st; showSettings := showSettings st;
      selectedVoice := selectedVoice st; selectedLanguage := languageCode;
      apiKey := apiKey st; serviceRef := serviceRef st |},
   if serviceRef st then [service_changeLanguage languageCode] else []).

Definition handleApiKeySave (key : string) (localStorage : Storage)
    (st : Component) : Storage * Component * list Effect :=
  (<["openai_api_key" := key]> localStorage,
   {| state := state st; showSettings := false;
      selectedVoice := selectedVoice st;
      selectedLanguage := selectedLanguage st;
      apiKey := key; serviceRef := serviceRef st |},
   [initializeService key]).

Definition toggleSettings (localStorage : Storage) (st : Component)
    : Storage * Component * list Effect :=
  (localStorage,
   {| state := state st; showSettings := negb (showSettings st);
      selectedVoice := selectedVoice st;
      selectedLanguage := selectedLanguage st;
      apiKey := apiKey st; serviceRef := serviceRef st |}, []).

(** The handlers the settings panel can trigger. *)
Inductive Operation : Type :=
  | Mount
  | HandleVoiceChange (voiceId : string)
  | HandleLanguageChange (languageCode : string)
  | HandleApiKeySave (key : string)
  | ToggleSettings.

Definition run (op : Operation) (localStorage : Storage) (st : Component)
    : Storage * Component * list Effect :=
  match op with
  | Mount => mount localStorage st
  | HandleVoiceChange v => handleVoiceChange v localStorage st
  | HandleLanguageChange l => handleLanguageChange l localStorage st
  | HandleApiKeySave k => handleApiKeySave k localStorage st
  | ToggleSettings => toggleSettings localStorage st
  end.

(** A component as [useState] creates it in a new session. *)
Definition fresh : Component :=
  {| state := Connecting; showSettings := false; selectedVoice := "cedar";
     selectedLanguage := "en"; apiKey := ""; serviceRef := false |}.

End EnhancedRealtimeVoiceSearch.

(* ===================================================================== *)
(** * lib/types: generateMockResults (src/unnamed/part_003, part_004)     *)
(* ===================================================================== *)

Module Types.
Import JS.
Local Open Scope Q_scope.

(** The fields of the [SearchParams] interface that decide the number of
    results and their price. *)
Record SearchParams : Type := {
  listingType : option string;
  priceMin : option Q;
  priceMax : option Q;
  bedroomsMin : option Q;
  bathroomsMin : option Q
}.

(** The fields of a generated [Property] computed from those. *)
Record Property : Type := {
  id : Q;
  price : Q;
  bedrooms : Q;
  bathrooms : Q;
  p_listingType : string
}.

(** ToBoolean of an optional number: [undefined] and [0] are falsy. *)
Definition is_truthy (v : option Q) : bool :=
  match v with Some q => negb (Qeq_bool q 0) | None => false end.

(** [v || d]. *)
Definition or_default (v : option Q) (d : Q) : Q :=
  match v with Some q => if Qeq_bool q 0 then d else q | None => d end.

(** [if (bound && value > bound) value = bound]. *)
Definition cap_above (bound : option Q) (value : Q) : Q :=
  match bound with
  | Some b => if negb (Qeq_bool b 0) && negb (Qle_bool value b) then b else value
  | None => value
  end.

(** [if (bound && value < bound) value = bound]. *)
Definition cap_below (bound : option Q) (value : Q) : Q :=
  match bound with
  | Some b => if negb (Qeq_bool b 0) && negb (Qle_bool b value) then b else value
  | None => value
  end.

(** [params.listingType || 'For Sale']. *)
Definition listingType_or_default (params : SearchParams) : string :=
  match listingType params with
  | Some t => if String.eqb t "" then "For Sale" else t
  | None => "For Sale"
  end.

Definition is_rental (listingType : string) : bool :=
  String.eqb listingType "For Rent" || String.eqb listingType "For Lease".

(** The rent branch; [r] is the value of [Math.random()]. *)
Definition rentValue (params : SearchParams) (r : Q) : Q :=
  let minRentDefault := 2000 in
  let maxRentDefault := 15000 in
  let v0 := or_default (priceMin params) minRentDefault
            + r * (or_default (priceMax params) maxRentDefault
                   - or_default (priceMin params) minRentDefault) in
  let v1 := inject_Z (Math_round (v0 / 100)) * 100 in
  cap_below (priceMin params) (cap_above (priceMax params) v1).

(** The sale branch. *)
Definition saleValue (params : SearchParams) (r : Q) : Q :=
  let minPriceDefault := 800000 in
  let maxPriceDefault := 5000000 in
  let v0 := or_default (priceMin params) minPriceDefault
            + r * (or_default (priceMax params) maxPriceDefault
                   - or_default (priceMin params) minPriceDefault) in
  let v1 := if is_truthy (priceMin params) && negb (is_truthy (priceMax params))
            then Math_max v0 (default 0 (priceMin params)) else v0 in
  let v2 := if is_truthy (priceMax params) && negb (is_truthy (priceMin params))
            then Math_min v1 (default 0 (priceMax params)) else v1 in
  let v3 := inject_Z (Math_round (v2 / 100000)) * 100000 in
  cap_below (priceMin params) (cap_above (priceMax params) v3).

(** [priceValue]; in part_004 the same number is then formatted into the
    display string of the [price] field. *)
Definition priceValue (params : SearchParams) (r : Q) : Q :=
  if is_rental (listingType_or_default params)
  then rentValue params r else saleValue params r.

(** The values [Math.random()] returns at the two call sites that matter
    here: the result count, and the price of the [i]-th result. *)
Record Randomness : Type := {
  random_count : Q;
  random_price : nat -> Q
}.

Definition unit_interval (r : Q) : Prop := 0 <= r /\ r < 1.

Definition valid (rnd : Randomness) : Prop :=
  unit_interval (random_count rnd) /\ forall i, unit_interval (random_price rnd i).

(** The [i]-th iteration of the loop; [now] is the value of [Date.now()]
    in that iteration. *)
Definition mockProperty (params : SearchParams) (now : nat -> Q)
    (rnd : Randomness) (i : nat) : Property :=
  let bedrooms := or_default (bedroomsMin params) (2 + inject_Z (Z.of_nat i)) in
  {| id := now i + inject_Z (Z.of_nat i);
     price := priceValue params (random_price rnd i);
     bedrooms := bedrooms;
     bathrooms := or_default (bathroomsMin params)
                    (if Qle_bool bedrooms 1 then 1 else bedrooms - 1);
     p_listingType := listingType_or_default params |}.

(** [generateMockResults(params)]. *)
Definition generateMockResults (params : SearchParams) (now : nat -> Q)
    (rnd : Randomness) : list Property :=
  let count := (3 + Math_floor (random_count rnd * 2))%Z in
  List.map (mockProperty params now rnd) (seq 0 (Z.to_nat count)).

(** Concrete inputs for the examples. *)
Definition zero_bounds : SearchParams :=
  {| listingType := None; priceMin := Some 0; priceMax := Some 0;
     bedroomsMin := None; bathroomsMin := None |}.

Definition all_zero : Randomness :=
  {| random_count := 0; random_price := fun _ => 0 |}.

Definition suburb_budget : SearchParams :=
  {| listingType := None; priceMin := Some 500000; priceMax := Some 930000;
     bedroomsMin := Some 3; bathroomsMin := None |}.

Definition all_half : Randomness :=
  {| random_count := 1 # 2; random_price := fun _ => 1 # 2 |}.

Definition clock : nat -> Q := fun _ => 1700000000000.

End Types.

(* ===================================================================== *)
(** * app/api/voice/process/route.ts (src/unnamed/part_005)               *)
(* ===================================================================== *)

Module VoiceProcessRoute.
Import JS.

(** [process.env]: the two variables the handler reads. *)
Record Env : Type := {
  GOOGLE_AI_API_KEY : option string;
  GEMINI_API_KEY : option string
}.

(** How the handler proceeds before it awaits the external service: it
    answers at once, or it sends the request to Gemini. *)
Inductive Outcome : Type :=
  | respond (status : nat) (body : Json)
  | call_gemini (apiKey : string) (query : string) (currentParams : option Json).

Definition error_body (msg : string) : Json := JObj [("error", JStr msg)].

Definition env_string (v : option string) : option string :=
  match v with
  | Some s => if String.eqb s "" then None else Some s
  | None => None
  end.

(** [POST(req)] up to the [fetch] of the Gemini endpoint.  [body] is the
    result of [await req.json()]: [None] when the request body is not JSON.
    Destructuring [null] throws, and the [catch] answers 500. *)
Definition POST (body : option Json) (env : Env) : Outcome :=
  match body with
  | None | Some JNull => respond 500 (error_body "Internal server error")
  | Some b =>
      match get b "query" with
      | Some (JStr query) =>
          if String.eqb query "" then respond 400 (error_body "Invalid query")
          else
            match env_string (GOOGLE_AI_API_KEY env), env_string (GEMINI_API_KEY env) with
            | Some apiKey, _ | None, Some apiKey =>
                call_gemini apiKey query (get b "currentParams")
            | None, None => respond 500 (error_body "AI service not configured")
            end
      | _ => respond 400 (error_body "Invalid query")
      end
  end.

Definition contacts_gemini (o : Outcome) : bool :=
  match o with call_gemini _ _ _ => true | respond _ _ => false end.

Definition configured : Env :=
  {| GOOGLE_AI_API_KEY := Some "key"; GEMINI_API_KEY := None |}.


(** What awaiting the [fetch] of the Gemini endpoint and reading its body
    can yield: the request fails; an answer that is not [ok], whose text
    is read ([Some]) or cannot be ([None]); an [ok] answer whose body is
    JSON ([Some]) or is not ([None]). *)
Inductive GeminiOutcome : Type :=
  | gemini_rejected
  | gemini_not_ok (errorText : option string)
  | gemini_ok (data : option Json).

(** [v?.name] and [v?.[0]] on a value that was read. *)
Definition optional (step : Json -> option Json) (v : option Json)
    : option Json :=
  match v with
  | None | Some JNull => None
  | Some x => step x
  end.

Definition first_of (v : Json) : option Json :=
  match v with
  | JArr items => head items
  | JStr (String c _) => Some (JStr (String c EmptyString))
  | JObj fields => assoc "0" fields
  | _ => None
  end.

(** [data.candidates?.[0]?.content?.parts?.[0]?.text] for a [data] other
    than [null]. *)
Definition extractedText (data : Json) : option Json :=
  optional (fun part => get part "text")
    (optional first_of
       (optional (fun content => get content "parts")
          (optional (fun candidate => get candidate "content")
             (optional first_of (get data "candidates"))))).

Section Runtime.

(** [JSON.parse] applied to a value ([None]: it throws). *)
Variable JSON_parse : Json -> option Json.

(** [POST(req)] from the [fetch] of the Gemini endpoint on: the status and
    the body of the reply. *)
Definition POST_resume (outcome : GeminiOutcome) : nat * Json :=
  let caught := (500%nat, error_body "Internal server error") in
  match outcome with
  | gemini_rejected => caught
  | gemini_not_ok (Some _) =>
      (500%nat, error_body "Failed to process voice query")
  | gemini_not_ok None => caught
  | gemini_ok None | gemini_ok (Some JNull) => caught
  | gemini_ok (Some data) =>
      match extractedText data with
      | Some text =>
          if truthy text then
            match JSON_parse text with
            | Some parsed => (200%nat, parsed)
            | None => caught
            end
          else (200%nat, JObj [])
      | None => (200%nat, JObj [])
      end
  end.

End Runtime.

(** The reply as the browser's [fetch] and [response.json()] hand it to
    the component. *)
Definition received (reply : nat * Json) : FetchOutcome :=
  fetch_response ((200 <=? reply.1)%nat && (reply.1 <? 300)%nat) (Some reply.2).

(** A Gemini answer with one candidate holding [text]. *)
Definition candidate (text : Json) : Json :=
  JObj [("candidates",
         JArr [JObj [("content",
                      JObj [("parts", JArr [JObj [("text", text)]])])]])].
End VoiceProcessRoute.

(* ===================================================================== *)
(** * src/components/voice-search/PriceRangeSlider.tsx                    *)
(* ===================================================================== *)

Module PriceRangeSlider.
Import JS.
Local Open Scope Q_scope.

Definition isRent (listingType : option string) : bool :=
  match listingType with
  | Some t => String.eqb t "For Rent" || String.eqb t "For Lease"
  | None => false
  end.

Definition effectiveMin (listingType : option string) : Q :=
  if isRent listingType then 500 else 100000.
Definition effectiveMax (listingType : option string) : Q :=
  if isRent listingType then 15000 else 10000000.
Definition effectiveStep (listingType : option string) : Q :=
  if isRent listingType then 100 else 50000.

Record Slider : Type := {
  localValues : Q * Q;            (* [minVal, maxVal] *)
  isMinThumbDragging : bool;
  isMaxThumbDragging : bool;
  sliderRef : bool                (* sliderRef.current !== null *)
}.

Definition minVal (st : Slider) : Q := (localValues st).1.
Definition maxVal (st : Slider) : Q := (localValues st).2.












(** The ordering the two thumbs are meant to keep. *)
Definition ordered (listingType : option string) (st : Slider) : Prop :=
  minVal st + effectiveStep listingType <= maxVal st.

(** Both thumbs lie on the track. *)
Definition on_track (listingType : option string) (st : Slider) : Prop :=
  effectiveMin listingType <= minVal st /\ maxVal st <= effectiveMax listingType.


Definition full_range : Slider :=
  {| localValues := (100000, 10000000); isMinThumbDragging := false;
     isMaxThumbDragging := false; sliderRef := true |}.

(** [valueToPercent(value, min, max)]. *)
Definition valueToPercent (value min max : Q) : Q :=
  if Qeq_bool max min then 0 else ((value - min) / (max - min)) * 100.

Definition minPercent (listingType : option string) (st : Slider) : Q :=
  valueToPercent (minVal st) (effectiveMin listingType) (effectiveMax listingType).
Definition maxPercent (listingType : option string) (st : Slider) : Q :=
  valueToPercent (maxVal st) (effectiveMin listingType) (effectiveMax listingType).



End PriceRangeSlider.

(* ===================================================================== *)
(** * lib/services/AustralianPropertyService (src/unnamed/part_003)       *)
(* ===================================================================== *)

Module AustralianPropertyService.
Import JS.
Local Open Scope Q_scope.

(** [s.includes(sub)]. *)
Fixpoint includes (s sub : string) : bool :=
  String.prefix sub s
  || match s with
     | String _ rest => includes rest sub
     | EmptyString => false
     end.

(** [s.charAt(0).toUpperCase() + s.slice(1)] for a string of code units
    below 256 whose first letter is an ASCII one. *)
Definition capitalize (s : string) : string :=
  match s with
  | String c rest =>
      let n := nat_of_ascii c in
      String (if (97 <=? n)%nat && (n <=? 122)%nat
              then ascii_of_nat (n - 32) else c) rest
  | EmptyString => EmptyString
  end.

(** The fields of a [Property] of the service that the search reads or
    reports; the address, description, image and agent strings are left
    out. *)
Record Property : Type := {
  id : string;
  title : string;
  suburb : string;
  state : string;
  postcode : string;
  price : Q;
  propertyType : string;
  bedrooms : Q;
  bathrooms : Q;
  parking : Q;
  buildingArea : Q;
  features : option (list string)
}.

(** The fields of [AustralianPropertySearchParams] that [searchProperties]
    reads. *)
Record Params : Type := {
  location : option string;
  p_propertyType : option string;
  priceMin : option Q;
  priceMax : option Q;
  p_bedrooms : option Q;
  amenities : option (list string)
}.

Record LocationMatch : Type := {
  name : string;
  type : string;
  m_state : string;
  confidence : Q;
  averagePrice : Q
}.

Record PriceAnalysis : Type := {
  marketAverage : Q;
  priceRange : Q * Q;
  affordabilityScore : Q;
  marketTrend : string
}.

Record PropertySearchResult : Type := {
  properties : list Property;
  totalCount : nat;
  searchParams : Params;
  searchTime : Q;
  suggestions : list string;
  locationMatches : list LocationMatch;
  priceAnalysis : PriceAnalysis
}.

(** [AUSTRALIAN_LOCATIONS], in the order of its keys. *)
Definition AUSTRALIAN_LOCATIONS : list (string * (string * Q)) :=
  [ ("Sydney", ("NSW", 1200000)); ("Melbourne", ("VIC", 900000));
    ("Brisbane", ("QLD", 650000)); ("Bondi", ("NSW", 2500000));
    ("South Yarra", ("VIC", 1800000)); ("Surfers Paradise", ("QLD", 800000));
    ("Paddington", ("NSW", 3200000)); ("Fitzroy", ("VIC", 1100000));
    ("Perth", ("WA", 550000)); ("Adelaide", ("SA", 480000)) ].

(** ToBoolean of an optional string and of an optional number. *)
Definition given_string (v : option string) : option string :=
  match v with
  | Some s => if String.eqb s "" then None else Some s
  | None => None
  end.

Definition given_number (v : option Q) : option Q :=
  match v with
  | Some q => if Qeq_bool q 0 then None else Some q
  | None => None
  end.

(** [matchesLocation(property, location)]. *)
Definition matchesLocation (property : Property) (location : string) : bool :=
  let searchLocation := toLowerCase location in
  let propertyLocation :=
    toLowerCase (suburb property +:+ " " +:+ state property) in
  includes propertyLocation searchLocation
  || includes searchLocation (toLowerCase (suburb property))
  || includes searchLocation (toLowerCase (state property)).

Definition has_amenity (wanted : list string) (property : Property) : bool :=
  existsb (fun amenity =>
    match features property with
    | Some fs =>
        existsb (fun feature =>
          includes (toLowerCase feature) (toLowerCase amenity)) fs
    | None => false
    end) wanted.

(** The chain of filters of [searchProperties]. *)
Definition filterProperties (params : Params) (mockProperties : list Property)
    : list Property :=
  let l1 := match given_string (location params) with
            | Some loc => List.filter (fun p => matchesLocation p loc) mockProperties
            | None => mockProperties
            end in
  let l2 := match given_string (p_propertyType params) with
            | Some t =>
                List.filter (fun p =>
                  includes (toLowerCase (propertyType p)) (toLowerCase t)) l1
            | None => l1
            end in
  let l3 := match given_number (priceMin params) with
            | Some lo => List.filter (fun p => Qle_bool lo (price p)) l2
            | None => l2
            end in
  let l4 := match given_number (priceMax params) with
            | Some hi => List.filter (fun p => Qle_bool (price p) hi) l3
            | None => l3
            end in
  let l5 := match given_number (p_bedrooms params) with
            | Some b => List.filter (fun p => Qle_bool b (bedrooms p)) l4
            | None => l4
            end in
  match amenities params with
  | Some (a :: wanted) => List.filter (has_amenity (a :: wanted)) l5
  | _ => l5
  end.

(** [generateSuggestions(params, resultCount)]. *)
Definition generateSuggestions (params : Params) (resultCount : nat)
    : list string :=
  take 3
    (if (resultCount =? 0)%nat then
       ["Try expanding your search area";
        "Consider increasing your price range"]
     else if (resultCount <? 5)%nat then
       ["Try nearby suburbs for more options"]
     else ["Refine your search with specific amenities"]).

(** A stable sort by descending confidence, as [Array.prototype.sort] with
    the comparator [(a, b) => b.confidence - a.confidence]. *)
Fixpoint insert_by_confidence (x : LocationMatch) (l : list LocationMatch)
    : list LocationMatch :=
  match l with
  | [] => [x]
  | y :: rest =>
      if Qle_bool (confidence y) (confidence x) then x :: l
      else y :: insert_by_confidence x rest
  end.

Definition sort_by_confidence (l : list LocationMatch) : list LocationMatch :=
  foldr insert_by_confidence [] l.

(** [findLocationMatches(location)]. *)
Definition findLocationMatches (location : string) : list LocationMatch :=
  if String.eqb location "" then []
  else
    let searchTerm := toLowerCase location in
    let matches :=
      omap (fun '(n, (st, avg)) =>
        if includes (toLowerCase n) searchTerm
           || includes searchTerm (toLowerCase n)
        then Some {| name := n;
                     type := if (10 <? String.length n)%nat
                             then "suburb" else "city";
                     m_state := st; confidence := 9 # 10;
                     averagePrice := avg |}
        else None) AUSTRALIAN_LOCATIONS in
    take 5 (sort_by_confidence matches).

(** [Math.min(...prices)] and [Math.max(...prices)] of a non-empty list. *)
Definition minimum (first : Q) (rest : list Q) : Q := fold_left Math_min rest first.
Definition maximum (first : Q) (rest : list Q) : Q := fold_left Math_max rest first.

(** [analyzePrices(properties, params)]. *)
Definition analyzePrices (found : list Property) (params : Params)
    : PriceAnalysis :=
  match List.map price found with
  | [] =>
      {| marketAverage := 750000; priceRange := (400000, 2000000);
         affordabilityScore := 50; marketTrend := "stable" |}
  | first :: rest =>
      let prices := first :: rest in
      let marketAverage :=
        fold_left Qplus prices 0 / inject_Z (Z.of_nat (length prices)) in
      {| marketAverage := marketAverage;
         priceRange := (minimum first rest, maximum first rest);
         affordabilityScore := Math_max 0 (100 - marketAverage / 20000);
         marketTrend :=
           if negb (Qle_bool marketAverage 1000000) then "rising"
           else if negb (Qle_bool 600000 marketAverage) then "falling"
           else "stable" |}
  end.

(** [searchProperties(params)] on the service's [mockProperties];
    [startTime] and [endTime] are the two readings of [Date.now()]. *)
Definition searchProperties (mockProperties : list Property) (params : Params)
    (startTime endTime : Q) : PropertySearchResult :=
  let filteredProperties := filterProperties params mockProperties in
  {| properties := take 20 filteredProperties;
     totalCount := length filteredProperties;
     searchParams := params;
     searchTime := endTime - startTime;
     suggestions := generateSuggestions params (length filteredProperties);
     locationMatches :=
       findLocationMatches (default "" (given_string (location params)));
     priceAnalysis := analyzePrices filteredProperties params |}.

Definition postcodeRanges : list (string * (Z * Z)) :=
  [ ("NSW", (2000, 2999)%Z); ("VIC", (3000, 3999)%Z); ("QLD", (4000, 4999)%Z);
    ("WA", (6000, 6999)%Z); ("SA", (5000, 5999)%Z); ("TAS", (7000, 7999)%Z);
    ("ACT", (2600, 2618)%Z); ("NT", (800, 999)%Z) ].

Fixpoint lookup_key {A} (k : string) (table : list (string * A)) : option A :=
  match table with
  | [] => None
  | (k', v) :: rest => if String.eqb k k' then Some v else lookup_key k rest
  end.

(** The number [generatePostcode(state)] turns into a string; [r] is the
    value of [Math.random()].  A state named like a property inherited from
    [Object.prototype] yields a value that cannot be destructured: a
    TypeError ([None]). *)
Definition postcodeNumber (st : string) (r : Q) : option Z :=
  match lookup_key st postcodeRanges with
  | Some (lo, hi) =>
      Some (Math_floor (r * inject_Z (hi - lo + 1)) + lo)%Z
  | None =>
      if string_in st Object_prototype_keys then None
      else Some (Math_floor (r * inject_Z (2999 - 2000 + 1)) + 2000)%Z
  end.

Definition generatePostcode (st : string) (r : Q) : option string :=
  pretty <$> postcodeNumber st r.

Definition propertyTypes : list string :=
  ["house"; "apartment"; "townhouse"; "unit"; "villa"].

Definition all_features : list string :=
  ["pool"; "garage"; "garden"; "balcony"; "air conditioning"; "solar panels";
   "ensuite"; "dishwasher"].

(** [list[Math.floor(r * list.length)]]; [None] is [undefined]. *)
Definition pick {A} (l : list A) (r : Q) : option A :=
  let i := Math_floor (r * inject_Z (Z.of_nat (length l))) in
  if (i <? 0)%Z then None else l !! Z.to_nat i.

(** [l.slice(0, n)] for an integer [n]. *)
Definition slice0 {A} (n : Z) (l : list A) : list A :=
  if (n <? 0)%Z then take (length l - Z.to_nat (- n)) l else take (Z.to_nat n) l.

(** The values of [Math.random()] in one iteration of
    [generateMockProperties], and the order in which the randomly compared
    sort leaves the [features] array. *)
Record Draws : Type := {
  d_location : Q; d_type : Q; d_bedrooms : Q; d_bathrooms : Q; d_parking : Q;
  d_price : Q; d_sorted : list string; d_count : Q; d_postcode : Q; d_area : Q
}.

Definition unit_interval (r : Q) : Prop := 0 <= r /\ r < 1.

Definition valid (d : Draws) : Prop :=
  unit_interval (d_location d) /\ unit_interval (d_type d)
  /\ unit_interval (d_bedrooms d) /\ unit_interval (d_bathrooms d)
  /\ unit_interval (d_parking d) /\ unit_interval (d_price d)
  /\ unit_interval (d_count d) /\ unit_interval (d_postcode d)
  /\ unit_interval (d_area d) /\ d_sorted d ≡ₚ all_features.

(** The [i]-th iteration of the loop of [generateMockProperties]; [None]
    when an index falls outside its array and the iteration throws. *)
Definition mockProperty (i : nat) (d : Draws) : option Property :=
  match pick (AUSTRALIAN_LOCATIONS.*1) (d_location d) with
  | None => None
  | Some loc =>
      match lookup_key loc AUSTRALIAN_LOCATIONS, pick propertyTypes (d_type d) with
      | Some (st, avgPrice), Some ptype =>
          let beds := (Math_floor (d_bedrooms d * 5) + 1)%Z in
          let selectedFeatures :=
            slice0 (Math_floor (d_count d * 6) + 2) (d_sorted d) in
          match generatePostcode st (d_postcode d) with
          | Some code =>
              Some {| id := "prop-" +:+ pretty (i + 1)%nat;
                      title := pretty beds +:+ " Bed " +:+ capitalize ptype
                               +:+ " in " +:+ loc;
                      suburb := loc; state := st; postcode := code;
                      price := inject_Z (Math_round
                                 (avgPrice * (1 + (d_price d - (1 # 2)) * (3 # 5))));
                      propertyType := ptype;
                      bedrooms := inject_Z beds;
                      bathrooms := inject_Z (Math_floor (d_bathrooms d * 3) + 1);
                      parking := inject_Z (Math_floor (d_parking d * 3));
                      buildingArea := inject_Z (Math_floor (d_area d * 120) + 60);
                      features := Some selectedFeatures |}
          | None => None
          end
      | _, _ => None
      end
  end.

(** [generateMockProperties()]: one hundred iterations. *)
Definition generateMockProperties (draws : nat -> Draws) : option (list Property) :=
  mapM (fun i => mockProperty i (draws i)) (seq 0 100).

(** What every generated property looks like: small counts, a price within
    30% of the average of its suburb (whose state it carries), and between
    two and seven distinct features of the catalogue. *)
Definition plausible (p : Property) : Prop :=
  (1 <= bedrooms p /\ bedrooms p <= 5)
  /\ (1 <= bathrooms p /\ bathrooms p <= 3)
  /\ (0 <= parking p /\ parking p <= 2)
  /\ (60 <= buildingArea p /\ buildingArea p <= 179)
  /\ In (propertyType p) propertyTypes
  /\ (exists avgPrice,
        lookup_key (suburb p) AUSTRALIAN_LOCATIONS = Some (state p, avgPrice)
        /\ (7 # 10) * avgPrice <= price p /\ price p <= (13 # 10) * avgPrice)
  /\ (exists fs, features p = Some fs
        /\ (2 <= length fs <= 7)%nat /\ NoDup fs /\ fs ⊆ all_features).

(** Concrete inputs for the examples. *)
Definition midpoint : Draws :=
  {| d_location := 1 # 2; d_type := 1 # 2; d_bedrooms := 1 # 2;
     d_bathrooms := 1 # 2; d_parking := 1 # 2; d_price := 1 # 2;
     d_sorted := all_features; d_count := 1 # 2; d_postcode := 1 # 2;
     d_area := 1 # 2 |}.

Definition no_criteria : Params :=
  {| location := None; p_propertyType := None; priceMin := None;
     priceMax := None; p_bedrooms := None; amenities := None |}.

Definition by_location (loc : string) : Params :=
  {| location := Some loc; p_propertyType := None; priceMin := None;
     priceMax := None; p_bedrooms := None; amenities := None |}.

Definition family_home : Params :=
  {| location := Some "sydney"; p_propertyType := Some "House";
     priceMin := Some 500000; priceMax := Some 2000000;
     p_bedrooms := Some 3; amenities := Some ["Pool"] |}.

Definition six_bedrooms : Params :=
  {| location := None; p_propertyType := None; priceMin := None;
     priceMax := None; p_bedrooms := Some 6; amenities := None |}.

Definition sample_home : Property :=
  {| id := "prop-1"; title := "4 Bed House in Sydney"; suburb := "Sydney";
     state := "NSW"; postcode := "2000"; price := 1250000;
     propertyType := "house"; bedrooms := 4; bathrooms := 2; parking := 1;
     buildingArea := 150; features := Some ["pool"; "garage"] |}.

Definition sample_unit : Property :=
  {| id := "prop-2"; title := "1 Bed Unit in Perth"; suburb := "Perth";
     state := "WA"; postcode := "6000"; price := 400000;
     propertyType := "unit"; bedrooms := 1; bathrooms := 1; parking := 0;
     buildingArea := 60; features := Some ["balcony"] |}.

End AustralianPropertyService.
(* ===================================================================== *)
(** * OpenAIRealtimeService: handlers, incoming messages and outgoing
      events (src/unnamed/part_003)                                       *)
(* ===================================================================== *)

Module RealtimeEvents.
Import JS.

(** A registered function, known by its identity. *)
Definition Handler : Type := nat.

(** [eventHandlers]: each [Set] as the list of its members in insertion
    order. *)
Abbreviation Registry := (gmap string (list Handler)).

Definition Set_add (handler : Handler) (handlers : list Handler)
    : list Handler :=
  if bool_decide (handler ∈ handlers) then handlers else handlers ++ [handler].

Definition Set_remove (handler : Handler) (handlers : list Handler)
    : list Handler :=
  List.filter (fun h => negb (Nat.eqb h handler)) handlers.

(** [on(eventType, handler)]. *)
Definition on (eventType : string) (handler : Handler) (reg : Registry)
    : Registry :=
  let reg := match reg !! eventType with
             | Some _ => reg
             | None => <[eventType := []]> reg
             end in
  <[eventType := Set_add handler (default [] (reg !! eventType))]> reg.

(** [off(eventType, handler)]. *)
Definition off (eventType : string) (handler : Handler) (reg : Registry)
    : Registry :=
  match reg !! eventType with
  | Some handlers => <[eventType := Set_remove handler handlers]> reg
  | None => reg
  end.

(** What the service does to the outside; the [console.log] lines are left
    out. *)
Inductive Effect : Type :=
  | call (handler : Handler) (event : Json)
  | ws_send (message : Json)
  | console_warn (msg : string) (messageType : option Json)
  | console_error (msg : string).

(** An assignment [o[k] = v] on the property list of an object. *)
Fixpoint set_field (k : string) (v : Json) (fields : list (string * Json))
    : list (string * Json) :=
  match fields with
  | [] => [(k, v)]
  | (k', v') :: rest =>
      if String.eqb k k' then (k, v) :: rest
      else (k', v') :: set_field k v rest
  end.

(** [{ ...target, ...source }]: the own properties of [source] assigned in
    turn. *)
Definition spread (target source : list (string * Json))
    : list (string * Json) :=
  fold_left (fun o k => match assoc k source with
                        | Some v => set_field k v o
                        | None => o
                        end) (own_keys source) target.

Definition handlers_for (eventType : string) (reg : Registry) : list Handler :=
  default [] (reg !! eventType).

(** [emit(eventType, data)]; [data] is an object or [undefined].  The
    handlers are taken to leave the registry alone while they run. *)
Definition emit (eventType : string) (data : option (list (string * Json)))
    (reg : Registry) : list Effect :=
  let event := JObj (spread [("type", JStr eventType)] (default [] data)) in
  List.map (fun handler => call handler event) (handlers_for eventType reg)
  ++ List.map (fun handler => call handler event) (handlers_for "*" reg).

Record Service : Type := {
  ws : option OpenAIRealtimeService.ReadyState;
  isConnected : bool;
  currentSessionId : option Json;
  eventIdCounter : nat;
  eventHandlers : Registry
}.

Definition is_open (s : Service) : bool :=
  match ws s with Some OpenAIRealtimeService.OPEN => true | _ => false end.

(** [sendMessage(message)]. *)
Definition sendMessage (message : Json) (s : Service) : list Effect :=
  if is_open s then [ws_send message]
  else [console_warn "WebSocket not connected, cannot send message:"
                     (get message "type")].

(** [generateEventId()]; [now] is the reading of [Date.now()], in
    milliseconds. *)
Definition eventId (now : N) (counter : nat) : string :=
  "event_" +:+ pretty now +:+ "_" +:+ pretty counter.

(** A string without the separator of the parts of an event id. *)
Definition plain (s : string) : Prop :=
  forall c, In c (list_ascii_of_string s) -> c <> "_"%char.

Definition generateEventId (now : N) (s : Service) : Service * string :=
  ({| ws := ws s; isConnected := isConnected s;
      currentSessionId := currentSessionId s;
      eventIdCounter := S (eventIdCounter s);
      eventHandlers := eventHandlers s |},
   eventId now (S (eventIdCounter s))).

Definition response_create (eventId : string) : Json :=
  JObj [("event_id", JStr eventId); ("type", JStr "response.create")].

(** [sendTextMessage(text, language)]; [now1] and [now2] are the two
    readings of the clock. *)
Definition sendTextMessage (text : string) (language : option string)
    (now1 now2 : N) (s : Service) : Service * list Effect :=
  let '(s1, eventId1) := generateEventId now1 s in
  let message :=
    JObj [("event_id", JStr eventId1);
          ("type", JStr "conversation.item.create");
          ("item",
           JObj [("type", JStr "message"); ("role", JStr "user");
                 ("content",
                  JArr [JObj [("type", JStr "input_text");
                              ("text",
                               JStr match language with
                                    | Some l =>
                                        if String.eqb l "" then text
                                        else "[Language: " +:+ l +:+ "] "
                                             +:+ text
                                    | None => text
                                    end)]])])] in
  let '(s2, eventId2) := generateEventId now2 s1 in
  (s2, sendMessage message s1 ++ sendMessage (response_create eventId2) s2).

Section Runtime.

(** [JSON.parse] applied to a property that was read ([None]: it throws),
    and [JSON.stringify]. *)
Variable JSON_parse : option Json -> option Json.
Variable JSON_stringify : Json -> string.

(** [sendFunctionResult(callId, result)]; a [callId] that is [undefined]
    leaves no [call_id] property in the serialised message. *)
Definition sendFunctionResult (callId : option Json) (result : Json)
    (now1 now2 : N) (s : Service) : Service * list Effect :=
  let '(s1, eventId1) := generateEventId now1 s in
  let message :=
    JObj [("event_id", JStr eventId1);
          ("type", JStr "conversation.item.create");
          ("item",
           JObj ([("type", JStr "function_call_output")]
                 ++ match callId with
                    | Some c => [("call_id", c)]
                    | None => []
                    end
                 ++ [("output", JStr (JSON_stringify result))]))] in
  let '(s2, eventId2) := generateEventId now2 s1 in
  (s2, sendMessage message s1 ++ sendMessage (response_create eventId2) s2).

Definition invalid_search : Json :=
  JObj [("error", JStr "Invalid search parameters");
        ("message", JStr "Could not parse search criteria")].

(** [handleFunctionCall(message)]. *)
Definition handleFunctionCall (message : Json) (now1 now2 : N) (s : Service)
    : Service * list Effect :=
  match get message "name" with
  | Some (JStr name) =>
      if String.eqb name "search_properties" then
        match JSON_parse (get message "arguments") with
        | Some args =>
            (s, emit "property_search_requested"
                  (Some ([("searchParams", args)]
                         ++ match get message "call_id" with
                            | Some c => [("callId", c)]
                            | None => []
                            end))
                  (eventHandlers s))
        | None =>
            let '(s', sent) :=
              sendFunctionResult (get message "call_id") invalid_search
                now1 now2 s in
            (s', console_error "Error parsing function call arguments:"
                 :: sent)
        end
      else (s, [])
  | _ => (s, [])
  end.

(** The event that the [switch] of [handleRealtimeMessage] emits for a
    message type, where it emits one with the message as its data. *)
Definition forwarded_as (messageType : string) : option string :=
  if String.eqb messageType "session.created" then Some "session_ready"
  else if String.eqb messageType "input_audio_buffer.speech_started"
  then Some "speech_started"
  else if String.eqb messageType "input_audio_buffer.speech_stopped"
  then Some "speech_stopped"
  else if String.eqb messageType "response.created"
  then Some "response_started"
  else if String.eqb messageType "response.audio_transcript.delta"
  then Some "transcript_delta"
  else if String.eqb messageType "response.done"
  then Some "response_complete"
  else if String.eqb messageType "error" then Some "error"
  else None.

(** [handleRealtimeMessage(message)] on a parsed object: the new state,
    the effects, and whether the method returned ([false]: it threw). *)
Definition handleRealtimeMessage (fields : list (string * Json))
    (now1 now2 : N) (s : Service) : Service * list Effect * bool :=
  let message := JObj fields in
  let reg := eventHandlers s in
  let typed :=
    match assoc "type" fields with
    | Some (JStr t) => handlers_for t reg
    | _ => []
    end in
  let dispatched :=
    List.map (fun handler => call handler message) typed
    ++ List.map (fun handler => call handler message) (handlers_for "*" reg) in
  match assoc "type" fields with
  | Some (JStr t) =>
      if String.eqb t "session.created" then
        match assoc "session" fields with
        | None | Some JNull => (s, dispatched, false)
        | Some session =>
            ({| ws := ws s; isConnected := isConnected s;
                currentSessionId := get session "id";
                eventIdCounter := eventIdCounter s;
                eventHandlers := reg |},
             dispatched ++ emit "session_ready" (Some fields) reg, true)
        end
      else if String.eqb t "response.function_call_arguments.done" then
        let '(s', effects) := handleFunctionCall message now1 now2 s in
        (s', dispatched ++ effects, true)
      else
        match forwarded_as t with
        | Some eventType =>
            (s,
             dispatched
             ++ (if String.eqb t "error"
                 then [console_error "Realtime API error:"] else [])
             ++ emit eventType (Some fields) reg, true)
        | None => (s, dispatched, true)
        end
  | _ => (s, dispatched, true)
  end.

End Runtime.

(** [String.fromCharCode.apply(null, Array.from(chunk))]. *)
Definition fromCharCodes (chunk : list ascii) : string :=
  string_of_list_ascii chunk.

Definition chunkSize : nat := Z.to_nat 0x8000.

(** The loop of [arrayBufferToBase64] from index [i] on; [fuel] bounds the
    number of rounds. *)
Fixpoint binary_from (fuel i : nat) (bytes : list ascii) : string :=
  match fuel with
  | O => ""
  | S fuel =>
      if (i <? length bytes)%nat then
        fromCharCodes (take chunkSize (drop i bytes))
        +:+ binary_from fuel (i + chunkSize) bytes
      else ""
  end.

(** [arrayBufferToBase64(buffer)] with the platform's [btoa]; the loop
    ends within [bytes.length] rounds. *)
Definition arrayBufferToBase64 (btoa : string -> string) (bytes : list ascii)
    : string :=
  btoa (binary_from (length bytes) 0 bytes).

(** Calls to [on] and [off], in the order they were made. *)
Inductive Registration : Type :=
  | On (eventType : string) (handler : Handler)
  | Off (eventType : string) (handler : Handler).

Definition register (r : Registration) (reg : Registry) : Registry :=
  match r with
  | On eventType handler => on eventType handler reg
  | Off eventType handler => off eventType handler reg
  end.

Definition registry_after (calls : list Registration) : Registry :=
  fold_left (fun reg r => register r reg) calls ∅.

(** Whether the last call that named [handler] for [eventType] was [on]. *)
Definition registered (eventType : string) (handler : Handler)
    (calls : list Registration) : bool :=
  fold_left (fun b r =>
    match r with
    | On t h => if String.eqb t eventType && Nat.eqb h handler then true else b
    | Off t h => if String.eqb t eventType && Nat.eqb h handler then false else b
    end) calls false.

Definition is_call_to (handler : Handler) (e : Effect) : bool :=
  match e with
  | call h _ => Nat.eqb h handler
  | _ => false
  end.

Definition calls_to (handler : Handler) (effects : list Effect) : nat :=
  length (List.filter (is_call_to handler) effects).

Definition sent (effects : list Effect) : list Json :=
  omap (fun e => match e with ws_send m => Some m | _ => None end) effects.

Definition open_service (reg : Registry) : Service :=
  {| ws := Some OpenAIRealtimeService.OPEN; isConnected := true;
     currentSessionId := None; eventIdCounter := 0; eventHandlers := reg |}.

Definition session_created : list (string * Json) :=
  [("type", JStr "session.created"); ("event_id", JStr "event_1");
   ("session", JObj [("id", JStr "sess_42")])].

Definition error_message : list (string * Json) :=
  [("event_id", JStr "event_7"); ("type", JStr "error");
   ("error", JObj [("message", JStr "rate limit")])].

End RealtimeEvents.

(* ===================================================================== *)
(** * EnhancedRealtimeVoiceSearch: answering a property search
      (src/components/universal-voice-search/EnhancedRealtimeVoiceSearch.tsx) *)
(* ===================================================================== *)

Module RealtimeSearch.
Import JS.

Inductive Effect : Type :=
  | service_effect (e : RealtimeEvents.Effect)
  (* [onResults(result.properties)], after one second *)
  | onResults (found : list AustralianPropertyService.Property).



Definition outcome (found : list AustralianPropertyService.Property) : string :=
  if (0 <? length found)%nat then "success" else "no_results".



End RealtimeSearch.

(* ===================================================================== *)
(** * EnhancedVoiceSearch: the recognition handlers and the buttons
      (src/components/universal-voice-search/EnhancedVoiceSearch.tsx)     *)
(* ===================================================================== *)

Module EnhancedVoiceSession.
Import JS EnhancedVoiceSearch.

(** The state of the first render, which the handlers of the recognition
    started by the mount effect read. *)
Definition mount_render : Component :=
  {| state := Initializing; transcript := ""; finalTranscript := "";
     isListening := false; showConfirm := false |}.

Definition CONFIRMATION_PHRASES : list string :=
  ["let's go"; "lets go"; "okay"; "yes"; "search"; "find"; "do it"; "confirm"].

(** [checkConfirmationPhrase(text)]. *)
Definition checkConfirmationPhrase (text : string) : bool :=
  let cleanText := trim (toLowerCase text) in
  existsb (fun phrase => AustralianPropertyService.includes cleanText phrase)
          CONFIRMATION_PHRASES.

Definition finalTranscriptUpdate
    (results : list VoiceSearch.SpeechRecognitionResult) : string :=
  fold_left (fun s r => if VoiceSearch.isFinal r
                        then s +:+ VoiceSearch.result_transcript r +:+ " "
                        else s) results "".

Definition interimTranscript
    (results : list VoiceSearch.SpeechRecognitionResult) : string :=
  fold_left (fun s r => if VoiceSearch.isFinal r then s
                        else s +:+ VoiceSearch.result_transcript r) results "".

(** [processTranscript] of the render [render], up to its [await]: it
    reads that render's [finalTranscript]; its updates apply to [st]. *)
Definition processTranscript_of (render st : Component)
    : Component * list Effect * bool :=
  let '(_, effects, pending) := processTranscript_start render in
  (set_state Processing st, effects, pending).

(** [handleSearch] of the render [render]; the calls on the recognition
    object are left out. *)
Definition handleSearch (render st : Component)
    : Component * list Effect * bool :=
  processTranscript_of render st.

Definition onstart (st : Component) : Component :=
  {| state := Listening; transcript := transcript st;
     finalTranscript := finalTranscript st; isListening := true;
     showConfirm := showConfirm st |}.

(** [recognition.onresult] on the results from [event.resultIndex] on;
    [render] is the render the handler was created in.  The keyword chips
    and the silence timer are left out. *)
Definition onresult (render : Component)
    (results : list VoiceSearch.SpeechRecognitionResult) (st : Component)
    : Component * list Effect * bool :=
  let update := finalTranscriptUpdate results in
  let st1 :=
    {| state := state st;
       transcript :=
         finalTranscript render +:+ update +:+ interimTranscript results;
       finalTranscript :=
         if String.eqb update "" then finalTranscript st
         else finalTranscript st +:+ update;
       isListening := isListening st; showConfirm := showConfirm st |} in
  if negb (String.eqb update "") && checkConfirmationPhrase update
  then handleSearch render st1
  else (st1, [], false).

Definition is_listening (v : VoiceState) : bool :=
  match v with Listening => true | _ => false end.

Definition is_confirming (v : VoiceState) : bool :=
  match v with Confirming => true | _ => false end.

(** [recognition.onend]. *)
Definition onend (render st : Component) : Component :=
  if is_listening (state render)
     && (0 <? String.length (trim (finalTranscript render)))%nat
  then {| state := Confirming; transcript := transcript st;
          finalTranscript := finalTranscript st; isListening := false;
          showConfirm := true |}
  else {| state := state st; transcript := transcript st;
          finalTranscript := finalTranscript st; isListening := false;
          showConfirm := showConfirm st |}.

(** [recognition.onerror] with [event.error]. *)
Definition onerror (error : string) (st : Component) : Component * list Effect :=
  ({| state := state st; transcript := transcript st;
      finalTranscript := finalTranscript st; isListening := false;
      showConfirm := showConfirm st |},
   console_error "Speech recognition error:"
   :: (if String.eqb error "no-speech" then [onClose] else [])).

(** [handleRetry]: the state it sets; the recognition it creates belongs
    to the render that was clicked. *)
Definition handleRetry (st : Component) : Component :=
  {| state := Listening; transcript := ""; finalTranscript := "";
     isListening := isListening st; showConfirm := false |}.

(** What can happen to the mounted component.  The two buttons exist only
    while [state] is ['confirming']. *)
Inductive Event : Type :=
  | Started
  | Result (results : list VoiceSearch.SpeechRecognitionResult)
  | Ended
  | Failed (error : string)
  | Replied (outcome : FetchOutcome)
  | ClickSearch
  | ClickRetry
  | ClickClose.

Record Session : Type := {
  component : Component;
  handlers : Component;           (* the render the recognition belongs to *)
  pending : bool;                 (* a request awaits its reply *)
  effects : list Effect
}.

Definition step (s : Session) (e : Event) : Session :=
  let st := component s in
  match e with
  | Started =>
      {| component := onstart st; handlers := handlers s;
         pending := pending s; effects := effects s |}
  | Result results =>
      let '(st', new, asked) := onresult (handlers s) results st in
      {| component := st'; handlers := handlers s;
         pending := pending s || asked; effects := effects s ++ new |}
  | Ended =>
      {| component := onend (handlers s) st; handlers := handlers s;
         pending := pending s; effects := effects s |}
  | Failed error =>
      let '(st', new) := onerror error st in
      {| component := st'; handlers := handlers s; pending := pending s;
         effects := effects s ++ new |}
  | Replied outcome =>
      if pending s then
        let '(st', new) := processTranscript_resume outcome st in
        {| component := st'; handlers := handlers s; pending := false;
           effects := effects s ++ new |}
      else s
  | ClickSearch =>
      if is_confirming (state st) then
        let '(st', new, asked) := handleSearch st st in
        {| component := st'; handlers := handlers s;
           pending := pending s || asked; effects := effects s ++ new |}
      else s
  | ClickRetry =>
      if is_confirming (state st) then
        {| component := handleRetry st; handlers := st;
           pending := pending s; effects := effects s |}
      else s
  | ClickClose =>
      {| component := st; handlers := handlers s; pending := pending s;
         effects := effects s ++ [onClose] |}
  end.

(** The component from its mount on, in a browser with speech
    recognition. *)
Definition mounted (events : list Event) : Session :=
  fold_left step events
    {| component := mount_render; handlers := mount_render; pending := false;
       effects := [] |}.

Definition is_request (e : Effect) : bool :=
  match e with fetch_voice_process _ => true | _ => false end.

Definition is_result (e : Effect) : bool :=
  match e with onResults_mock _ => true | _ => false end.

Definition lets_go : list VoiceSearch.SpeechRecognitionResult :=
  [{| VoiceSearch.isFinal := true;
      VoiceSearch.result_transcript := "three bedroom house in Bondi" |};
   {| VoiceSearch.isFinal := true;
      VoiceSearch.result_transcript := "let's go" |}].

End EnhancedVoiceSession.


(* ===================================================================== *)
(** * Proof automation for the number model                               *)
(* ===================================================================== *)

(** Case analysis on a comparison [Qle_bool a b], leaving the order fact. *)
Ltac qcase a b :=
  let E := fresh "E" in
  destruct (Qle_bool a b) eqn:E;
  [ apply Qle_bool_iff in E
  | apply not_true_iff_false in E; rewrite Qle_bool_iff in E;
    apply Qnot_le_lt in E ].

(** Case analysis on the truthiness test [Qeq_bool a 0]. *)
Ltac qzero a :=
  let E := fresh "Z" in
  destruct (Qeq_bool a 0) eqn:E;
  [ apply Qeq_bool_iff in E
  | apply not_true_iff_false in E; rewrite Qeq_bool_iff in E ].


(* ===================================================================== *)
(** * Properties of the voice-search merge                                *)
(* ===================================================================== *)

Section Merge.
Import JS VoiceSearch.

(** The filter keeps exactly the catalogued strings of the response that
    the existing set lacks (with their multiplicity). *)
Lemma filter_new_spec config existing items s :
  In s (filter_new config existing items) <->
  In (JStr s) items /\ config_has config s = true
  /\ Set_has existing (JStr s) = false.
Proof.
  induction items as [|a items IH]; simpl; [tauto|].
  destruct a as [| | |t| |]; try (rewrite IH; intuition congruence).
  destruct (config_has config t) eqn:Hc; simpl.
  - destruct (Set_has existing (JStr t)) eqn:Hs; simpl; rewrite IH.
    + intuition (simplify_eq; congruence).
    + intuition (simplify_eq; auto).
  - rewrite IH. intuition (simplify_eq; congruence).
Qed.

(** An assignment through [Partial_set] changes no other own property. *)
Lemma Partial_set_other k j v p :
  j <> k -> own (Partial_set j v p) !! k = own p !! k.
Proof.
  intros Hne. unfold Partial_set.
  destruct (String.eqb j "__proto__"); [by destruct v|].
  simpl. by rewrite lookup_insert_ne.
Qed.

Lemma merge_list_other config j sp value acc acc' k :
  merge_list config j sp value acc = Some acc' -> j <> k ->
  own (updatedParamsPartial acc') !! k = own (updatedParamsPartial acc) !! k.
Proof.
  unfold merge_list. intros H Hne.
  destruct (existing_set sp j); [|done].
  destruct value; try done.
  destruct (0 <? _)%nat; simplify_eq; [|done].
  simpl. by apply Partial_set_other.
Qed.

(** The iteration for key [j] writes at most the own property [j]. *)
Lemma merge_key_other sp rd acc acc' j k :
  merge_key sp rd acc j = Some acc' -> j <> k ->
  own (updatedParamsPartial acc') !! k = own (updatedParamsPartial acc) !! k.
Proof.
  unfold merge_key. intros H Hne.
  destruct (key_in_initialSearchParams j); [|by simplify_eq].
  destruct (assoc j rd) as [param|]; [|by simplify_eq].
  destruct (truthy param); [|by simplify_eq].
  destruct (get param "value") as [value|]; [|by simplify_eq].
  assert (forall acc1,
    match get param "sourceText" with
    | Some (JArr items) =>
        match filter_sourceText items with
        | Some kept =>
            Some {| updatedParamsPartial := updatedParamsPartial acc1;
                    newGlowing := newGlowing acc1;
                    newlyHighlighted := newlyHighlighted acc1 ++ kept |}
        | None => None
        end
    | _ => Some acc1
    end = Some acc' -> updatedParamsPartial acc' = updatedParamsPartial acc1)
    as Hsrc.
  { intros acc1 Hs.
    destruct (get param "sourceText") as [[]|]; simplify_eq; try done.
    destruct (filter_sourceText items); by simplify_eq. }
  destruct value; try (by simplify_eq).
  all: destruct (String.eqb j "amenities") eqn:Ea;
       [|destruct (String.eqb j "tags") eqn:Et].
  all: try match type of H with
       | match merge_list ?c ?n ?s ?v ?a with _ => _ end = _ =>
           destruct (merge_list c n s v a) as [acc1|] eqn:Hm; [|done];
           apply Hsrc in H; rewrite H;
           eapply merge_list_other; [exact Hm|]
       end.
  all: try (apply String.eqb_eq in Ea; by subst).
  all: try (apply String.eqb_eq in Et; by subst).
  all: apply Hsrc in H; rewrite H; simpl; by apply Partial_set_other.
Qed.

Lemma merge_key_untouched sp rd acc k :
  untouched rd k -> merge_key sp rd acc k = Some acc.
Proof.
  unfold merge_key. intros [H|[H|(param & H & Hv)]]; rewrite ?H.
  - by destruct (key_in_initialSearchParams k).
  - done.
  - destruct (key_in_initialSearchParams k); [|done].
    destruct (truthy param); [|done].
    by destruct Hv as [-> | ->].
Qed.

Lemma for_in_untouched sp rd keys acc acc' k :
  untouched rd k -> for_in sp rd keys acc = Some acc' ->
  own (updatedParamsPartial acc') !! k = own (updatedParamsPartial acc) !! k.
Proof.
  intros Hk. revert acc.
  induction keys as [|j keys IH]; intros acc H; simpl in H.
  - by simplify_eq.
  - destruct (merge_key sp rd acc j) as [acc1|] eqn:Hj; [|done].
    rewrite (IH _ H). destruct (decide (j = k)) as [->|Hne].
    + rewrite merge_key_untouched in Hj by done. by simplify_eq.
    + by eapply merge_key_other.
Qed.

(** A failed request (rejected, not OK, or with an unreadable body) is
    logged and changes nothing but the status. *)
Lemma processTranscript_failure c outcome st :
  (outcome = fetch_rejected \/ (exists body, outcome = fetch_response false body)
   \/ exists ok, outcome = fetch_response ok None) ->
  (processTranscript_resume c outcome st).2
    = [console_error "Error processing transcript:"]
  /\ searchParamsState (processTranscript_resume c outcome st).1
     = searchParamsState st
  /\ highlightedText (processTranscript_resume c outcome st).1
     = highlightedText st.
Proof.
  intros [->|[[body ->]|[ok ->]]]; try done.
  by destruct ok.
Qed.

(** C1 (evaluation of the defect).  With no amenity selected, a response
    that names the catalogued amenity "Pool" twice leaves the amenities
    list ["Pool"; "Pool"]: the filter compares each response entry with the
    existing set only, not with the entries accepted before it. *)
Lemma duplicate_amenity_introduced :
  searchParamsState sample_state !! "amenities" = None
  /\ searchParamsState
       (processTranscript_resume sample_closure
          (fetch_response true (Some pool_twice)) sample_state).1 !! "amenities"
     = Some (JArr [JStr "Pool"; JStr "Pool"]).
Proof. split; vm_compute; reflexivity. Qed.

(** One merge step leaves the value of a key unchanged when the response
    has no such property, when the key fails the loop's
    [in initialSearchParams] test, or when the property carries no value
    (absent or [null]). *)
Lemma merge_frame
    (c : Closure) (responseData : Json) (st : Component) (k : string) :
  untouched (enumerable responseData) k ->
  searchParamsState
    (processTranscript_resume c (fetch_response true (Some responseData)) st).1
    !! k
  = searchParamsState st !! k.
Proof.
  intros Hk. unfold processTranscript_resume.
  destruct (merge _ _) as [acc|] eqn:Hm; [|done].
  destruct (0 <? _)%nat; [|done]. simpl.
  apply (for_in_untouched _ _ _ _ _ _ Hk) in Hm. simpl in Hm.
  rewrite lookup_empty in Hm.
  by rewrite lookup_union_r.
Qed.

Example merge_frame_location :
  searchParamsState
    (processTranscript_resume sample_closure
       (fetch_response true (Some price_only)) sample_state).1 !! "location"
  = Some (JStr "Sydney").
Proof. by rewrite merge_frame; [|left]. Qed.

(** The [in] test of the loop accepts more than the fourteen keys of the
    literal. *)
Lemma in_accepts_inherited_names k :
  string_in k Object_prototype_keys = true ->
  key_in_initialSearchParams k = true.
Proof. intros H. unfold key_in_initialSearchParams. rewrite H. apply orb_true_r. Qed.

(** C2 (evaluation of the defect).  ["toString"] is not among the keys of
    [initialSearchParams], yet a response property of that name passes the
    [key in initialSearchParams] test (the name is inherited from
    [Object.prototype]) and its value is stored in the search parameters. *)
Lemma inherited_key_stored :
  string_in "toString" (initialSearchParams.*1) = false
  /\ searchParamsState sample_state !! "toString" = None
  /\ searchParamsState
       (processTranscript_resume sample_closure
          (fetch_response true (Some inherited_key)) sample_state).1 !! "toString"
     = Some (JStr "x").
Proof. split; [done|]. split; vm_compute; reflexivity. Qed.

(** The [onresult] closure of a session keeps the [searchParams] of the
    render that started it: the second merge of the session rebuilds the
    amenities from that stale value and drops the amenity the first merge
    had added. *)
Lemma stale_closure_drops_amenity :
  let st1 := (processTranscript_resume listening_closure
                (fetch_response true (Some with_pool)) listening_state).1 in
  let st2 := (processTranscript_resume listening_closure
                (fetch_response true (Some with_gym)) st1).1 in
  searchParamsState st1 !! "amenities" = Some (JArr [JStr "Pool"])
  /\ searchParamsState st2 !! "amenities" = Some (JArr [JStr "Gym"]).
Proof. split; vm_compute; reflexivity. Qed.



End Merge.

(* ===================================================================== *)
(** * The listening session                                               *)
(* ===================================================================== *)

Section Session.
Import JS VoiceSearch.

Lemma substring_from_app a b : substring_from (String.length a) (a +:+ b) = b.
Proof.
  induction a as [|ch a IH]; [done|].
  change (substring_from (String.length a) (a +:+ b) = b). exact IH.
Qed.

Lemma app_empty_r a : a +:+ "" = a.
Proof.
  induction a as [|ch a IH]; [done|].
  change (String ch (a +:+ "") = String ch a). by rewrite IH.
Qed.

Lemma lastFinal_switch c st :
  lastFinalTranscript (switchToRealSearch c st) = lastFinalTranscript st.
Proof. unfold switchToRealSearch. by destruct (c_isDemoMode c). Qed.

Lemma lastFinal_processTranscript_start c text st :
  lastFinalTranscript (processTranscript_start c text st).1.1
  = lastFinalTranscript st.
Proof.
  unfold processTranscript_start.
  destruct (is_command _); [done|]. by destruct (_ <? _)%nat.
Qed.

(** A session that [handleStartListening] starts begins with an empty
    record of processed text. *)
Lemma handleStartListening_starts c st :
  recognitionRef st = false ->
  lastFinalTranscript (handleStartListening c true st).1 = ""
  /\ recognitionRef (handleStartListening c true st).1 = true
  /\ (handleStartListening c true st).2 = [recognition_start].
Proof.
  intros Href. unfold handleStartListening, switchToRealSearch. simpl.
  destruct (c_isDemoMode c); simpl; [by rewrite Href|].
  destruct (c_status c); simpl; by rewrite Href.
Qed.

(** One recognition result whose final transcript extends the recorded one
    by [chunk]: the record becomes the new final transcript and the call, if
    any, carries the trimmed chunk. *)
Lemma onresult_chunk_spec c results st chunk :
  final_transcript results = lastFinalTranscript st +:+ chunk ->
  lastFinalTranscript (onresult_chunk c results st).1 = final_transcript results
  /\ (onresult_chunk c results st).2 = submitted chunk.
Proof.
  intros Hf. unfold onresult_chunk. simpl. rewrite ?lastFinal_switch.
  destruct (String.eqb (final_transcript results) "") eqn:E0; simpl.
  - apply String.eqb_eq in E0. rewrite ?lastFinal_switch.
    rewrite E0 in Hf |- *.
    destruct (lastFinalTranscript st) as [|??]; [|done].
    change (("" : string) = chunk) in Hf. by subst chunk.
  - destruct (String.eqb (final_transcript results) (lastFinalTranscript st))
      eqn:E1; simpl.
    + apply String.eqb_eq in E1. rewrite ?lastFinal_switch. split; [done|].
      rewrite E1 in Hf.
      rewrite <- (app_empty_r (lastFinalTranscript st)) in Hf at 1.
      apply String.app_inj in Hf. by subst chunk.
    + rewrite Hf, substring_from_app. unfold submitted.
      by destruct (String.eqb (trim chunk) "").
Qed.

Lemma lastFinal_onresult c results st :
  lastFinalTranscript (onresult c results st).1.1
  = lastFinalTranscript (onresult_chunk c results st).1.
Proof.
  unfold onresult.
  destruct (onresult_chunk c results st) as [st' [text|]]; [|done].
  apply lastFinal_processTranscript_start.
Qed.

(** The chunks of a growing transcript partition it. *)
Lemma grows_concat last events chunks final :
  grows last events chunks final -> final = fold_left String.append chunks last.
Proof. induction 1 as [|?????? He Hg IH]; [done|]. simpl. by rewrite <- He. Qed.

Lemma processTranscript_start_queries c text st :
  fetch_queries (processTranscript_start c text st).1.2
  = if extracted text then [text] else [].
Proof.
  unfold processTranscript_start, extracted, handleSearch.
  destruct (is_command _); simpl; [by destruct (recognitionRef st)|].
  by destruct (_ <? _)%nat.
Qed.

Lemma fetch_queries_app e1 e2 :
  fetch_queries (e1 ++ e2) = fetch_queries e1 ++ fetch_queries e2.
Proof. unfold fetch_queries. apply omap_app. Qed.

Lemma onresult_queries c results st :
  fetch_queries (onresult c results st).1.2
  = filter (fun t => extracted t = true)
           (option_list (onresult_chunk c results st).2).
Proof.
  unfold onresult.
  destruct (onresult_chunk c results st) as [st' [text|]]; simpl; [|done].
  rewrite processTranscript_start_queries. rewrite filter_cons, filter_nil.
  destruct (extracted text); by case_decide.
Qed.

(** C4.  While the final transcript grows chunk by chunk during a listening
    session, the handler hands to [processTranscript] exactly the newly
    finalized chunks, each once and in order (trimmed, blank ones skipped),
    records the whole final transcript as processed, and the extraction
    requests carry exactly those of the submitted chunks that
    [processTranscript] does not treat as a command or as too short. *)
Theorem session_submits_each_chunk_once
    (c : Closure) (events : list (list SpeechRecognitionResult))
    (st : Component) (chunks : list string) (final : string) :
  grows (lastFinalTranscript st) events chunks final ->
  lastFinalTranscript (session c events st).1.1 = final
  /\ (session c events st).1.2 = omap submitted chunks
  /\ fetch_queries (session c events st).2
     = filter (fun t => extracted t = true) (omap submitted chunks).
Proof.
  remember (lastFinalTranscript st) as last eqn:Hl.
  intros Hg. revert st Hl.
  induction Hg as [last|last e chunk rest chunks final He Hg IH]; intros st Hl.
  - done.
  - simpl. subst last.
    destruct (onresult_chunk_spec c e st chunk He) as [H1 H2].
    pose proof (onresult_queries c e st) as Hq.
    pose proof (lastFinal_onresult c e st) as Hl.
    destruct (onresult c e st) as [[st' effects] pending]. simpl in *.
    rewrite H1 in Hl. specialize (IH st' (eq_sym Hl)).
    destruct (session c rest st') as [[st'' calls] effects']. simpl in *.
    destruct IH as (-> & -> & IH). split; [done|].
    rewrite H2 in *. rewrite fetch_queries_app, Hq, IH.
    split; [by destruct (submitted chunk)|].
    destruct (submitted chunk) as [t|]; simpl; [|done].
    rewrite !filter_cons, filter_nil. by case_decide.
Qed.

Lemma session_submits_each_chunk_once_witness :
  grows (lastFinalTranscript listening_state) two_events
        ["find a house "; "in Sydney"] "find a house in Sydney"
  /\ (session listening_closure two_events listening_state).1.2
     = ["find a house"; "in Sydney"].
Proof.
  assert (grows (lastFinalTranscript listening_state) two_events
            ["find a house "; "in Sydney"] "find a house in Sydney") as Hg.
  { apply grows_cons; [reflexivity|].
    apply grows_cons; [reflexivity|]. apply grows_nil. }
  split; [exact Hg|].
  exact (proj1 (proj2 (session_submits_each_chunk_once listening_closure
                         two_events listening_state _ _ Hg))).
Defined.

End Session.

(* ===================================================================== *)
(** * Failures of the extraction request in the universal voice search    *)
(* ===================================================================== *)

Section Failures.
Import JS.

(** A rejected request, or a body that does not parse, is logged and the
    modal is closed. *)
Lemma enhanced_failure_closes outcome st :
  (outcome = fetch_rejected \/ exists ok, outcome = fetch_response ok None) ->
  EnhancedVoiceSearch.processTranscript_resume outcome st
  = (st, [EnhancedVoiceSearch.console_error "Error processing transcript:";
          EnhancedVoiceSearch.onClose]).
Proof. by intros [->|[ok ->]]. Qed.


End Failures.

(* ===================================================================== *)
(** * Cancellation                                                        *)
(* ===================================================================== *)

Section Cancellation.
Import JS OpenAIRealtimeService.



End Cancellation.

(* ===================================================================== *)
(** * Persistence                                                         *)
(* ===================================================================== *)

Section Persistence.
Import EnhancedRealtimeVoiceSearch.



End Persistence.

(* ===================================================================== *)
(** * Mock results                                                        *)
(* ===================================================================== *)

Section MockResults.
Import JS Types.
Local Open Scope Q_scope.

(** The two final clamps bring any value into [lo, hi], provided the cap
    is not the falsy 0 and a floor of 0 meets a non-negative value. *)
Lemma cap_bounds lo hi v :
  lo <= hi -> ~ hi == 0 -> (~ lo == 0 \/ 0 <= v) ->
  lo <= cap_below (Some lo) (cap_above (Some hi) v)
  /\ cap_below (Some lo) (cap_above (Some hi) v) <= hi.
Proof.
  intros Hle Hhi Hlo. unfold cap_below, cap_above.
  qzero hi; [done|]. simpl. qcase v hi; simpl; qzero lo; simpl.
  - destruct Hlo; [done|]. lra.
  - qcase lo v; simpl; lra.
  - lra.
  - qcase lo hi; simpl; lra.
Qed.

Lemma Math_round_nonneg x : 0 <= x -> 0 <= inject_Z (Math_round x).
Proof.
  intros Hx. unfold Math_round.
  assert (Qfloor 0 <= Qfloor (x + (1 # 2)))%Z as H
    by (apply Qfloor_resp_le; lra).
  change (Qfloor 0) with 0%Z in H.
  change 0 with (inject_Z 0). by rewrite <- Zle_Qle.
Qed.

Lemma rounded_nonneg v (step : Q) :
  0 < step -> 0 <= v -> 0 <= inject_Z (Math_round (v / step)) * step.
Proof.
  intros Hs Hv. apply Qmult_le_0_compat; [|lra].
  apply Math_round_nonneg. apply Qle_shift_div_l; lra.
Qed.

Lemma priceValue_bounds params r lo hi :
  priceMin params = Some lo -> priceMax params = Some hi ->
  lo <= hi -> ~ hi == 0 -> unit_interval r ->
  lo <= priceValue params r /\ priceValue params r <= hi.
Proof.
  intros Hmin Hmax Hle Hhi [Hr0 Hr1]. unfold priceValue.
  destruct (is_rental _); unfold rentValue, saleValue; rewrite Hmin, Hmax;
    apply cap_bounds; try done.
  - unfold or_default. qzero lo; [right|by left]. qzero hi; [done|].
    apply rounded_nonneg; [lra|].
    assert (0 <= r * hi) by (apply Qmult_le_0_compat; lra). lra.
  - unfold or_default, is_truthy. qzero lo; [right|by left]. qzero hi; [done|].
    simpl. apply rounded_nonneg; [lra|].
    assert (0 <= r * hi) by (apply Qmult_le_0_compat; lra).
    unfold Math_min. qcase (800000 + r * (hi - 800000)) hi; lra.
Qed.

Lemma count_3_or_4 r :
  unit_interval r ->
  (3 + Math_floor (r * 2) = 3 \/ 3 + Math_floor (r * 2) = 4)%Z.
Proof.
  intros [Hr0 Hr1]. unfold Math_floor.
  assert (Qfloor 0 <= Qfloor (r * 2))%Z as H0
    by (apply Qfloor_resp_le; lra).
  change (Qfloor 0) with 0%Z in H0.
  assert (Qfloor (r * 2) < 2)%Z as H2.
  { rewrite Zlt_Qlt. eapply Qle_lt_trans; [apply Qfloor_le|].
    change (inject_Z 2) with 2. lra. }
  lia.
Qed.

Lemma valid_all_zero : valid all_zero.
Proof. split; [|intros i]; split; simpl; lra. Qed.

Lemma valid_all_half : valid all_half.
Proof. split; [|intros i]; split; simpl; lra. Qed.

(** C8 (counterexample).  With [priceMin = priceMax = 0] both bounds are
    set and ordered, yet every generated price is 800000: a bound of 0 is
    falsy, so neither clamp applies. *)
Lemma zero_price_cap_ignored :
  priceMin zero_bounds = Some 0 /\ priceMax zero_bounds = Some 0 /\ 0 <= 0
  /\ valid all_zero
  /\ exists p, In p (generateMockResults zero_bounds clock all_zero)
               /\ price p == 800000 /\ ~ price p <= 0.
Proof.
  split; [done|]. split; [done|]. split; [lra|].
  split; [exact valid_all_zero|].
  exists (mockProperty zero_bounds clock all_zero 0).
  split; [by left|]. split; [reflexivity|]. vm_compute. by intros H.
Qed.

(** C8 (amended).  When both bounds are set, [priceMin <= priceMax] and
    [priceMax] is not 0, every generated property has a price within the
    bounds, and there are 3 or 4 properties. *)
Theorem mock_prices_within_bounds
    (params : SearchParams) (now : nat -> Q) (rnd : Randomness) (lo hi : Q) :
  priceMin params = Some lo -> priceMax params = Some hi ->
  lo <= hi -> ~ hi == 0 -> valid rnd ->
  (forall p, In p (generateMockResults params now rnd) ->
             lo <= price p /\ price p <= hi)
  /\ (length (generateMockResults params now rnd) = 3%nat
      \/ length (generateMockResults params now rnd) = 4%nat).
Proof.
  intros Hmin Hmax Hle Hhi [Hc Hp]. unfold generateMockResults. split.
  - intros p Hin. apply in_map_iff in Hin as (i & <- & _). simpl.
    by apply priceValue_bounds.
  - rewrite length_map, length_seq.
    destruct (count_3_or_4 _ Hc) as [-> | ->]; [by left|by right].
Qed.

Lemma mock_prices_within_bounds_witness :
  priceMin suburb_budget = Some 500000 /\ priceMax suburb_budget = Some 930000
  /\ 500000 <= 930000 /\ ~ 930000 == 0 /\ valid all_half
  /\ (forall p, In p (generateMockResults suburb_budget clock all_half) ->
                500000 <= price p /\ price p <= 930000)
  /\ (length (generateMockResults suburb_budget clock all_half) = 3%nat
      \/ length (generateMockResults suburb_budget clock all_half) = 4%nat).
Proof.
  assert (500000 <= 930000) as Hle by lra.
  assert (~ 930000 == 0) as Hne by lra.
  split; [reflexivity|]. split; [reflexivity|]. split; [exact Hle|].
  split; [exact Hne|]. split; [exact valid_all_half|].
  exact (mock_prices_within_bounds suburb_budget clock all_half 500000 930000
           eq_refl eq_refl Hle Hne valid_all_half).
Defined.

End MockResults.

(* ===================================================================== *)
(** * The voice-processing route                                          *)
(* ===================================================================== *)

Section Route.
Import JS VoiceProcessRoute.

(** Whatever the body, a request without a non-empty string [query] never
    reaches Gemini. *)
Lemma no_query_no_gemini body env :
  (forall q, get body "query" <> Some (JStr q)) ->
  contacts_gemini (POST (Some body) env) = false.
Proof.
  intros Hq. unfold POST. destruct body; try done.
  destruct (get (JObj fields) "query") as [[]|] eqn:E; try done.
  by destruct (Hq s).
Qed.

(** C9 (counterexample).  The JSON body [null] has no [query] field, and
    the handler answers it with status 500, not 400: destructuring [null]
    throws and the [catch] block replies. *)
Lemma null_body_answers_500 :
  get JNull "query" = None
  /\ POST (Some JNull) configured
     = respond 500 (error_body "Internal server error")
  /\ POST (Some JNull) configured <> respond 400 (error_body "Invalid query").
Proof. split; [done|]. split; [done|]. by intros H. Qed.

(** C9 (amended).  A JSON body other than [null] that has no [query], or
    whose [query] is not a string, is answered with status 400 and
    [{"error": "Invalid query"}], and Gemini is not contacted. *)
Theorem invalid_query_rejected (body : Json) (env : Env) :
  body <> JNull ->
  (forall q, get body "query" <> Some (JStr q)) ->
  POST (Some body) env = respond 400 (error_body "Invalid query")
  /\ contacts_gemini (POST (Some body) env) = false.
Proof.
  intros Hnull Hq. unfold POST. destruct body; try done.
  destruct (get (JObj fields) "query") as [[]|] eqn:E; try done.
  by destruct (Hq s).
Qed.

Lemma invalid_query_rejected_witness :
  JObj [("query", JNum 42)] <> JNull
  /\ (forall q, get (JObj [("query", JNum 42)]) "query" <> Some (JStr q))
  /\ POST (Some (JObj [("query", JNum 42)])) configured
     = respond 400 (error_body "Invalid query").
Proof.
  assert (JObj [("query", JNum 42)] <> JNull) as H1 by (intros H; discriminate H).
  assert (forall q, get (JObj [("query", JNum 42)]) "query" <> Some (JStr q))
    as H2 by (intros q H; discriminate H).
  split; [exact H1|]. split; [exact H2|].
  exact (proj1 (invalid_query_rejected (JObj [("query", JNum 42)]) configured
                  H1 H2)).
Defined.

End Route.

(* ===================================================================== *)
(** * The price range slider                                              *)
(* ===================================================================== *)

Section Slider.
Import JS PriceRangeSlider.
Local Open Scope Q_scope.

Lemma track_has_room lt :
  0 < effectiveStep lt /\ effectiveMin lt + effectiveStep lt <= effectiveMax lt.
Proof.
  unfold effectiveStep, effectiveMin, effectiveMax. destruct (isRent lt); lra.
Qed.







End Slider.

(* ===================================================================== *)
(** * The property search service                                         *)
(* ===================================================================== *)

Section PropertySearch.
Import JS AustralianPropertyService.
Local Open Scope Q_scope.

Lemma filter_of_option {A B} (o : option B) (f : B -> A -> bool) (l : list A) x :
  In x (match o with Some b => List.filter (f b) l | None => l end) <->
  In x l /\ (forall b, o = Some b -> f b x = true).
Proof.
  destruct o as [b|].
  - rewrite filter_In. split.
    + intros [? ?]. split; [done|]. by intros ? [= <-].
    + intros [? H]. split; [done|]. by apply H.
  - split; [intros ?; split; [done|]; by intros ? [=] | by intros [? _]].
Qed.

(** Membership in the filtered list, criterion by criterion. *)
Lemma filterProperties_In params mock p :
  In p (filterProperties params mock) <->
  In p mock
  /\ (forall loc, given_string (location params) = Some loc ->
        matchesLocation p loc = true)
  /\ (forall t, given_string (p_propertyType params) = Some t ->
        includes (toLowerCase (propertyType p)) (toLowerCase t) = true)
  /\ (forall lo, given_number (priceMin params) = Some lo ->
        Qle_bool lo (price p) = true)
  /\ (forall hi, given_number (priceMax params) = Some hi ->
        Qle_bool (price p) hi = true)
  /\ (forall b, given_number (p_bedrooms params) = Some b ->
        Qle_bool b (bedrooms p) = true)
  /\ (forall a wanted, amenities params = Some (a :: wanted) ->
        has_amenity (a :: wanted) p = true).
Proof.
  unfold filterProperties.
  assert (forall l,
    In p (match amenities params with
          | Some (a :: wanted) => List.filter (has_amenity (a :: wanted)) l
          | _ => l
          end) <->
    In p l /\ (forall a wanted, amenities params = Some (a :: wanted) ->
                 has_amenity (a :: wanted) p = true)) as Ham.
  { intros l. destruct (amenities params) as [[|a wanted]|].
    - split; [intros ?; split; [done|]; by intros ?? [=] | by intros [? _]].
    - rewrite filter_In. split.
      + intros [? ?]. split; [done|]. by intros ?? [= <- <-].
      + intros [? H]. split; [done|]. by apply H.
    - split; [intros ?; split; [done|]; by intros ?? [=] | by intros [? _]]. }
  rewrite Ham.
  rewrite (filter_of_option _ (fun b q => Qle_bool b (bedrooms q))).
  rewrite (filter_of_option _ (fun hi q => Qle_bool (price q) hi)).
  rewrite (filter_of_option _ (fun lo q => Qle_bool lo (price q))).
  rewrite (filter_of_option _
    (fun t q => includes (toLowerCase (propertyType q)) (toLowerCase t))).
  rewrite (filter_of_option _ (fun loc q => matchesLocation q loc)).
  tauto.
Qed.

Lemma filter_sublist {A} (f : A -> bool) (l : list A) :
  sublist (List.filter f l) l.
Proof.
  induction l as [|x l IH]; simpl; [done|].
  destruct (f x); by constructor.
Qed.

Lemma filterProperties_sublist params mock :
  sublist (filterProperties params mock) mock.
Proof.
  unfold filterProperties.
  repeat match goal with
         | |- context [match ?o with _ => _ end] => destruct o
         end.
  all: repeat first [reflexivity | etrans; [apply filter_sublist|]].
Qed.

(** X1.  Every property a search returns comes from the service's list and
    meets every criterion that is set: it matches the location and the
    type, its price lies within the given bounds and it has at least the
    requested bedrooms. *)
Theorem search_results_meet_criteria
    (mock : list Property) (params : Params) (t0 t1 : Q) (p : Property) :
  In p (properties (searchProperties mock params t0 t1)) ->
  In p mock
  /\ (forall loc, given_string (location params) = Some loc ->
        matchesLocation p loc = true)
  /\ (forall lo, given_number (priceMin params) = Some lo -> lo <= price p)
  /\ (forall hi, given_number (priceMax params) = Some hi -> price p <= hi)
  /\ (forall b, given_number (p_bedrooms params) = Some b -> b <= bedrooms p).
Proof.
  simpl. intros Hin.
  assert (In p (filterProperties params mock)) as Hf.
  { apply list_elem_of_In. apply list_elem_of_In in Hin.
    by apply (subseteq_take 20). }
  apply filterProperties_In in Hf as (H0 & H1 & _ & H3 & H4 & H5 & _).
  split; [done|]. split; [done|].
  split; [|split]; intros q Hq; apply Qle_bool_iff; auto.
Qed.

Lemma search_results_meet_criteria_witness :
  In sample_home
     (properties (searchProperties [sample_home; sample_unit] family_home 0 1))
  /\ 500000 <= price sample_home /\ price sample_home <= 2000000.
Proof.
  assert (In sample_home
            (properties (searchProperties [sample_home; sample_unit]
                           family_home 0 1))) as Hin by (left; reflexivity).
  split; [exact Hin|].
  destruct (search_results_meet_criteria _ _ _ _ _ Hin) as (_ & _ & H3 & H4 & _).
  split; [by apply H3 | by apply H4].
Defined.

(** X2.  A search returns a page of at most twenty properties, in the order
    of the service's list, and counts all matches: the page has
    [min 20 totalCount] entries and the count never exceeds the size of the
    list. *)
Theorem search_page_and_count
    (mock : list Property) (params : Params) (t0 t1 : Q) :
  let r := searchProperties mock params t0 t1 in
  length (properties r) = Nat.min 20 (totalCount r)
  /\ (totalCount r <= length mock)%nat
  /\ sublist (properties r) mock
  /\ searchTime r == t1 - t0.
Proof.
  simpl. split; [by rewrite length_take|].
  split; [apply sublist_length, filterProperties_sublist|].
  split; [|reflexivity].
  etrans; [apply sublist_take|apply filterProperties_sublist].
Qed.

(** X3.  Criteria that are absent or falsy (an empty location or type, a
    bound or bedroom count of 0, an empty amenity list) do not filter: the
    search counts the whole list. *)
Theorem search_without_criteria
    (mock : list Property) (params : Params) (t0 t1 : Q) :
  given_string (location params) = None ->
  given_string (p_propertyType params) = None ->
  given_number (priceMin params) = None ->
  given_number (priceMax params) = None ->
  given_number (p_bedrooms params) = None ->
  (amenities params = None \/ amenities params = Some []) ->
  totalCount (searchProperties mock params t0 t1) = length mock
  /\ properties (searchProperties mock params t0 t1) = take 20 mock.
Proof.
  intros H1 H2 H3 H4 H5 H6. simpl. unfold filterProperties.
  rewrite H1, H2, H3, H4, H5. by destruct H6 as [-> | ->].
Qed.

Lemma search_without_criteria_witness :
  totalCount
    (searchProperties [sample_home; sample_unit]
       {| location := Some ""; p_propertyType := None; priceMin := Some 0;
          priceMax := None; p_bedrooms := Some 0; amenities := Some [] |} 0 1)
  = 2%nat.
Proof.
  exact (proj1 (search_without_criteria [sample_home; sample_unit]
    {| location := Some ""; p_propertyType := None; priceMin := Some 0;
       priceMax := None; p_bedrooms := Some 0; amenities := Some [] |} 0 1
    eq_refl eq_refl eq_refl eq_refl eq_refl (or_intror eq_refl))).
Defined.


Lemma toLowerCase_app a b : toLowerCase (a +:+ b) = toLowerCase a +:+ toLowerCase b.
Proof.
  induction a as [|c a IH]; [done|].
  change (String (lower c) (toLowerCase (a +:+ b))
          = String (lower c) (toLowerCase a +:+ toLowerCase b)).
  by rewrite IH.
Qed.

Lemma prefix_app a b : String.prefix a (a +:+ b) = true.
Proof.
  induction a as [|c a IH]; [by destruct b|].
  change (String.prefix (String c a) (String c (a +:+ b)) = true).
  simpl. destruct (ascii_dec c c); [exact IH|done].
Qed.

Lemma includes_app a b : includes (a +:+ b) a = true.
Proof.
  destruct a as [|c a].
  - destruct b; reflexivity.
  - change (includes (String c (a +:+ b)) (String c a) = true).
    unfold includes; fold includes.
    change (String c (a +:+ b)) with (String c a +:+ b).
    by rewrite prefix_app.
Qed.

(** A property matches a location that is its own suburb, in any case. *)
Lemma matchesLocation_own_suburb p loc :
  toLowerCase loc = toLowerCase (suburb p) -> matchesLocation p loc = true.
Proof.
  intros Hl. unfold matchesLocation. rewrite Hl, toLowerCase_app.
  by rewrite includes_app.
Qed.

(** X4.  A search by location only, for a suburb name written in any case,
    counts every property of that suburb. *)
Theorem search_by_suburb_finds_property
    (mock : list Property) (p : Property) (loc : string) :
  In p mock ->
  toLowerCase loc = toLowerCase (suburb p) ->
  In p (filterProperties (by_location loc) mock).
Proof.
  intros Hin Hl. apply filterProperties_In. split; [done|].
  split.
  { intros l Hg. simpl in Hg. destruct (String.eqb loc ""); [done|].
    simplify_eq. by apply matchesLocation_own_suburb. }
  repeat split; intros; discriminate.
Qed.

Lemma search_by_suburb_finds_property_witness :
  In sample_unit [sample_home; sample_unit]
  /\ toLowerCase "PERTH" = toLowerCase (suburb sample_unit)
  /\ In sample_unit
        (filterProperties (by_location "PERTH") [sample_home; sample_unit]).
Proof.
  assert (In sample_unit [sample_home; sample_unit]) as Hin
    by (right; left; reflexivity).
  split; [exact Hin|]. split; [reflexivity|].
  exact (search_by_suburb_finds_property _ sample_unit "PERTH" Hin eq_refl).
Defined.

Lemma minimum_le_all first rest :
  minimum first rest <= first /\ Forall (fun x => minimum first rest <= x) rest.
Proof.
  unfold minimum. revert first.
  induction rest as [|y rest IH]; intros first; simpl.
  - split; [lra|constructor].
  - destruct (IH (Math_min first y)) as [H1 H2].
    assert (Math_min first y <= first /\ Math_min first y <= y) as [Ha Hb]
      by (unfold Math_min; qcase first y; lra).
    split; [lra|]. constructor; [lra|done].
Qed.

Lemma minimum_lower_bound b first rest :
  b <= first -> Forall (fun x => b <= x) rest -> b <= minimum first rest.
Proof.
  unfold minimum. revert first.
  induction rest as [|y rest IH]; intros first Hf Hr; simpl; [done|].
  apply Forall_cons in Hr as [Hy Hr]. apply IH; [|done].
  unfold Math_min. qcase first y; lra.
Qed.

Lemma maximum_ge_all first rest :
  first <= maximum first rest /\ Forall (fun x => x <= maximum first rest) rest.
Proof.
  unfold maximum. revert first.
  induction rest as [|y rest IH]; intros first; simpl.
  - split; [lra|constructor].
  - destruct (IH (Math_max first y)) as [H1 H2].
    assert (first <= Math_max first y /\ y <= Math_max first y) as [Ha Hb]
      by (unfold Math_max; qcase first y; lra).
    split; [lra|]. constructor; [lra|done].
Qed.

Lemma sum_between (l : list Q) (acc lo hi : Q) :
  Forall (fun x => lo <= x /\ x <= hi) l ->
  acc + lo * inject_Z (Z.of_nat (length l)) <= fold_left Qplus l acc
  /\ fold_left Qplus l acc <= acc + hi * inject_Z (Z.of_nat (length l)).
Proof.
  revert acc. induction l as [|x l IH]; intros acc Hall.
  - cbn [fold_left length]. change (inject_Z (Z.of_nat 0)) with 0. split; lra.
  - apply Forall_cons in Hall as [[Hx1 Hx2] Hall].
    destruct (IH (acc + x) Hall) as [H1 H2].
    change (length (x :: l)) with (S (length l)).
    rewrite Nat2Z.inj_succ. unfold Z.succ. rewrite inject_Z_plus.
    change (inject_Z 1) with 1. cbn [fold_left]. split; nra.
Qed.

(** X5.  For a non-empty result the analysis is consistent: every price
    and the market average lie within the reported price range, the
    affordability score is never negative, and it is at most 100 when no
    price is negative. *)
Theorem price_analysis_consistent (found : list Property) (params : Params) :
  found <> [] ->
  let a := analyzePrices found params in
  Forall (fun p => (priceRange a).1 <= price p /\ price p <= (priceRange a).2) found
  /\ (priceRange a).1 <= marketAverage a
  /\ marketAverage a <= (priceRange a).2
  /\ 0 <= affordabilityScore a
  /\ (Forall (fun p => 0 <= price p) found -> affordabilityScore a <= 100).
Proof.
  destruct found as [|p0 rest]; [done|]. intros _.
  unfold analyzePrices.
  change (List.map price (p0 :: rest)) with (price p0 :: List.map price rest).
  cbn [marketAverage priceRange affordabilityScore fst snd].
  set (first := price p0). set (others := List.map price rest).
  destruct (minimum_le_all first others) as [Hm1 Hm2].
  destruct (maximum_ge_all first others) as [HM1 HM2].
  assert (Forall (fun x => minimum first others <= x /\ x <= maximum first others)
                 (first :: others)) as Hall.
  { constructor; [split; lra|].
    apply Forall_and; split; done. }
  destruct (sum_between (first :: others) 0 _ _ Hall) as [Hs1 Hs2].
  set (n := inject_Z (Z.of_nat (length (first :: others)))) in *.
  assert (0 < n) as Hn.
  { unfold n. change 0 with (inject_Z 0). rewrite <- Zlt_Qlt. simpl. lia. }
  assert (minimum first others <= fold_left Qplus (first :: others) 0 / n) as Hlo
    by (apply Qle_shift_div_l; [done|lra]).
  assert (fold_left Qplus (first :: others) 0 / n <= maximum first others) as Hhi
    by (apply Qle_shift_div_r; [done|lra]).
  split.
  { apply Forall_cons in Hall as [Hf Ho]. constructor; [exact Hf|].
    unfold others in Ho. apply Forall_fmap in Ho. exact Ho. }
  split; [exact Hlo|]. split; [exact Hhi|].
  split; [unfold Math_max; qcase 0 (100 - fold_left Qplus (first :: others) 0 / n / 20000); lra|].
  intros Hpos. apply Forall_cons in Hpos as [Hp0 Hrest].
  assert (0 <= minimum first others) as Hmin.
  { apply minimum_lower_bound; [done|].
    unfold others. by apply Forall_fmap. }
  assert (0 <= fold_left Qplus (first :: others) 0 / n / 20000) as Hq.
  { apply Qle_shift_div_l; lra. }
  unfold Math_max.
  qcase 0 (100 - fold_left Qplus (first :: others) 0 / n / 20000); lra.
Qed.

Lemma price_analysis_consistent_witness :
  [sample_home; sample_unit] <> []
  /\ marketAverage (analyzePrices [sample_home; sample_unit] no_criteria)
     <= (priceRange (analyzePrices [sample_home; sample_unit] no_criteria)).2.
Proof.
  assert ([sample_home; sample_unit] <> []) as Hne by (intros H; discriminate H).
  split; [exact Hne|].
  exact (proj1 (proj2 (proj2
    (price_analysis_consistent [sample_home; sample_unit] no_criteria Hne)))).
Defined.

(** [Math.floor(Math.random() * k)] is an index below [k]. *)
Lemma floor_scaled (r : Q) (k : Z) :
  unit_interval r -> (0 < k)%Z ->
  (0 <= Math_floor (r * inject_Z k) < k)%Z.
Proof.
  intros [Hr0 Hr1] Hk. unfold Math_floor.
  assert (0 < inject_Z k) as Hk' by (change 0 with (inject_Z 0); by rewrite <- Zlt_Qlt).
  assert (0 <= r * inject_Z k) as H0 by (apply Qmult_le_0_compat; lra).
  assert (r * inject_Z k < inject_Z k) as H1 by nra.
  split.
  - assert (Qfloor 0 <= Qfloor (r * inject_Z k))%Z as H
      by (apply Qfloor_resp_le; lra).
    exact H.
  - rewrite Zlt_Qlt. eapply Qle_lt_trans; [apply Qfloor_le|exact H1].
Qed.

Lemma postcodeNumber_in_range (st : string) (lo hi : Z) (r : Q) :
  lookup_key st postcodeRanges = Some (lo, hi) ->
  unit_interval r ->
  exists n, postcodeNumber st r = Some n /\ (lo <= n <= hi)%Z
            /\ generatePostcode st r = Some (pretty n).
Proof.
  intros Hst Hr. unfold generatePostcode, postcodeNumber. rewrite Hst.
  eexists; split; [reflexivity|]. split; [|reflexivity].
  assert (0 < hi - lo + 1)%Z as Hk.
  { unfold postcodeRanges in Hst. simpl in Hst.
    repeat match type of Hst with
           | (if ?b then _ else _) = _ => destruct b
           end; simplify_eq; lia. }
  pose proof (floor_scaled r _ Hr Hk). lia.
Qed.

(** X6.  For each of the eight states of the table, the generated postcode
    lies within the range of that state. *)
Theorem postcode_within_state_range (st : string) (lo hi : Z) (r : Q) :
  lookup_key st postcodeRanges = Some (lo, hi) ->
  unit_interval r ->
  exists n, postcodeNumber st r = Some n /\ (lo <= n <= hi)%Z
            /\ generatePostcode st r = Some (pretty n).
Proof. exact (postcodeNumber_in_range st lo hi r). Qed.

Lemma postcode_within_state_range_witness :
  lookup_key "NT" postcodeRanges = Some (800, 999)%Z
  /\ unit_interval (1 # 2)
  /\ generatePostcode "NT" (1 # 2) = Some "900".
Proof.
  assert (unit_interval (1 # 2)) as Hr by (split; lra).
  split; [reflexivity|]. split; [exact Hr|].
  destruct (postcode_within_state_range "NT" 800 999 (1 # 2) eq_refl Hr)
    as (n & Hn & _ & Hs).
  vm_compute in Hn. injection Hn as <-. exact Hs.
Defined.

Lemma pick_some {A} (l : list A) (r : Q) :
  unit_interval r -> l <> [] -> exists x, pick l r = Some x /\ In x l.
Proof.
  intros Hr Hl. unfold pick.
  assert (0 < Z.of_nat (length l))%Z as Hlen by (destruct l; [done|simpl; lia]).
  pose proof (floor_scaled r _ Hr Hlen) as [H0 H1].
  destruct (Z.ltb_spec (Math_floor (r * inject_Z (Z.of_nat (length l)))) 0); [lia|].
  destruct (lookup_lt_is_Some_2 l
              (Z.to_nat (Math_floor (r * inject_Z (Z.of_nat (length l))))))
    as [x Hx]; [lia|].
  exists x. split; [done|]. apply list_elem_of_In. by eapply list_elem_of_lookup_2.
Qed.

Lemma round_between (lo hi x : Q) (a b : Z) :
  lo == inject_Z a -> hi == inject_Z b -> lo <= x -> x <= hi ->
  lo <= inject_Z (Math_round x) /\ inject_Z (Math_round x) <= hi.
Proof.
  intros Ha Hb H1 H2. unfold Math_round. rewrite Ha, Hb, <- !Zle_Qle.
  split.
  - rewrite <- (Qfloor_Z a). apply Qfloor_resp_le. lra.
  - assert (Qfloor (x + (1 # 2)) < b + 1)%Z; [|lia].
    rewrite Zlt_Qlt. eapply Qle_lt_trans; [apply Qfloor_le|].
    rewrite inject_Z_plus. change (inject_Z 1) with 1. lra.
Qed.

Lemma scaled_count (r : Q) (k : Z) (base : Z) :
  unit_interval r -> (0 < k)%Z ->
  inject_Z base <= inject_Z (Math_floor (r * inject_Z k) + base)
  /\ inject_Z (Math_floor (r * inject_Z k) + base) <= inject_Z (base + k - 1).
Proof.
  intros Hr Hk. pose proof (floor_scaled r k Hr Hk).
  rewrite <- !Zle_Qle. lia.
Qed.

Lemma mockProperty_plausible i d :
  valid d -> exists p, mockProperty i d = Some p /\ plausible p
                       /\ id p = "prop-" +:+ pretty (i + 1)%nat.
Proof.
  intros (Hl & Ht & Hb & Hba & Hpk & Hpr & Hc & Hpc & Ha & Hperm).
  unfold mockProperty.
  destruct (pick_some (AUSTRALIAN_LOCATIONS.*1) _ Hl) as (loc & -> & Hloc);
    [done|].
  destruct (pick_some propertyTypes _ Ht) as (ptype & -> & Hptype); [done|].
  assert (exists st avg,
    lookup_key loc AUSTRALIAN_LOCATIONS = Some (st, avg)
    /\ (7 # 10) * avg == inject_Z (Qfloor ((7 # 10) * avg))
    /\ (13 # 10) * avg == inject_Z (Qfloor ((13 # 10) * avg))
    /\ 0 < avg
    /\ exists lo hi, lookup_key st postcodeRanges = Some (lo, hi))
    as (st & avg & Hlook & Hlo & Hhi & Havg & lo & hi & Hrange).
  { simpl in Hloc.
    repeat (destruct Hloc as [<-|Hloc];
      [eexists _, _;
       split; [reflexivity|];
       split; [vm_compute; reflexivity|];
       split; [vm_compute; reflexivity|];
       split; [reflexivity|]; eexists _, _; reflexivity|]).
    done. }
  rewrite Hlook.
  destruct (postcodeNumber_in_range st lo hi _ Hrange Hpc)
    as (n & _ & _ & ->).
  eexists. split; [reflexivity|]. split; [|reflexivity].
  unfold plausible.
  cbn [bedrooms bathrooms parking buildingArea propertyType suburb state price
       features].
  split; [apply (scaled_count _ 5 1 Hb); lia|].
  split; [apply (scaled_count _ 3 1 Hba); lia|].
  split.
  { destruct (floor_scaled _ 3 Hpk) as [? ?]; [lia|].
    change 0 with (inject_Z 0). change 2 with (inject_Z 2).
    rewrite <- !Zle_Qle. change (inject_Z 3) with 3 in *. lia. }
  split; [apply (scaled_count _ 120 60 Ha); lia|].
  split; [done|].
  split.
  { exists avg. split; [done|].
    destruct Hpr as [Hr0 Hr1].
    apply (round_between _ _ _ _ _ Hlo Hhi); nra. }
  exists (slice0 (Math_floor (d_count d * 6) + 2) (d_sorted d)).
  split; [done|].
  destruct (floor_scaled _ 6 Hc) as [Hc0 Hc1]; [lia|].
  change (inject_Z 6) with 6 in *.
  unfold slice0.
  destruct (Z.ltb_spec (Math_floor (d_count d * 6) + 2) 0); [lia|].
  assert (length (d_sorted d) = 8%nat) as Hlen
    by (by rewrite (Permutation_length Hperm)).
  split; [rewrite length_take, Hlen; lia|].
  split.
  - eapply sublist_NoDup; [|apply sublist_take].
    rewrite Hperm. by apply (bool_decide_unpack (NoDup all_features)).
  - intros x Hx. apply (subseteq_take _ _ x) in Hx. by rewrite <- Hperm.
Qed.

Lemma mapM_indexed {A B} (f : A -> option B) (P : B -> Prop) (g : A -> string)
    (key : B -> string) (l : list A) :
  (forall x, exists y, f x = Some y /\ P y /\ key y = g x) ->
  exists k, mapM f l = Some k /\ length k = length l /\ Forall P k
            /\ key <$> k = g <$> l.
Proof.
  intros Hf. induction l as [|x l (k & Hk & Hlen & HP & Hkey)].
  - by exists [].
  - destruct (Hf x) as (y & Hy & Py & Hg).
    exists (y :: k). cbn. rewrite Hy. cbn. rewrite Hk. cbn.
    split; [done|]. split; [by rewrite Hlen|].
    split; [by constructor|]. by rewrite Hg, Hkey.
Qed.

Lemma generateMockProperties_spec (draws : nat -> Draws) :
  (forall i, valid (draws i)) ->
  exists props,
    generateMockProperties draws = Some props
    /\ length props = 100%nat
    /\ Forall plausible props
    /\ NoDup (id <$> props).
Proof.
  intros Hv. unfold generateMockProperties.
  destruct (mapM_indexed (fun i => mockProperty i (draws i)) plausible
              (fun i => "prop-" +:+ pretty (i + 1)%nat) id (seq 0 100))
    as (props & Hp & Hlen & Hall & Hids).
  { intros i. apply mockProperty_plausible, Hv. }
  exists props. split; [done|]. split; [by rewrite Hlen, length_seq|].
  split; [done|]. rewrite Hids.
  apply NoDup_fmap_2; [|apply NoDup_seq].
  intros i j Hij. apply String.app_inj in Hij.
  apply (inj pretty) in Hij. lia.
Qed.

(** X7.  With every random value in [0, 1), [generateMockProperties]
    completes and yields one hundred properties with distinct ids, each
    with 1-5 bedrooms, 1-3 bathrooms, 0-2 parking spaces, an area of
    60-179, one of the five property types, the state of its suburb, a
    price within 30% of that suburb's average, and two to seven distinct
    features of the catalogue. *)
Theorem generated_properties_plausible (draws : nat -> Draws) :
  (forall i, valid (draws i)) ->
  exists props,
    generateMockProperties draws = Some props
    /\ length props = 100%nat
    /\ Forall plausible props
    /\ NoDup (id <$> props).
Proof. exact (generateMockProperties_spec draws). Qed.

Lemma valid_midpoint : valid midpoint.
Proof. unfold valid, unit_interval. simpl. repeat split; try lra; try done. Qed.

Lemma generated_properties_plausible_witness :
  (forall i : nat, valid midpoint)
  /\ exists props, generateMockProperties (fun _ => midpoint) = Some props
                   /\ length props = 100%nat.
Proof.
  split; [intros _; exact valid_midpoint|].
  destruct (generated_properties_plausible (fun _ => midpoint)
              (fun _ => valid_midpoint)) as (props & H1 & H2 & _).
  exists props. split; [exact H1|exact H2].
Defined.

(** X8.  No generated property has more than five bedrooms: on the
    generated list, a search asking for more than five finds nothing,
    returns an empty page and the two suggestions to widen the search. *)
Theorem no_match_beyond_five_bedrooms
    (draws : nat -> Draws) (params : Params) (b t0 t1 : Q) :
  (forall i, valid (draws i)) ->
  given_number (p_bedrooms params) = Some b ->
  5 < b ->
  exists props,
    generateMockProperties draws = Some props
    /\ totalCount (searchProperties props params t0 t1) = 0%nat
    /\ properties (searchProperties props params t0 t1) = []
    /\ suggestions (searchProperties props params t0 t1)
       = ["Try expanding your search area";
          "Consider increasing your price range"].
Proof.
  intros Hv Hb H5.
  destruct (generateMockProperties_spec draws Hv) as (props & Hp & _ & Hall & _).
  exists props. split; [done|].
  assert (filterProperties params props = []) as Hnone.
  { destruct (filterProperties params props) as [|p rest] eqn:E; [done|].
    assert (In p (filterProperties params props)) as Hin by (rewrite E; by left).
    apply filterProperties_In in Hin as (Hin & _ & _ & _ & _ & Hbed & _).
    specialize (Hbed b Hb). apply Qle_bool_iff in Hbed.
    rewrite Forall_forall in Hall. apply list_elem_of_In in Hin.
    destruct (Hall p Hin) as ((_ & Hmax) & _). lra. }
  simpl. by rewrite Hnone.
Qed.

Lemma no_match_beyond_five_bedrooms_witness :
  (forall i : nat, valid midpoint)
  /\ given_number (p_bedrooms six_bedrooms) = Some 6
  /\ 5 < 6
  /\ exists props,
       generateMockProperties (fun _ => midpoint) = Some props
       /\ totalCount (searchProperties props six_bedrooms 0 1) = 0%nat.
Proof.
  assert (5 < 6) as H56 by lra.
  split; [intros _; exact valid_midpoint|]. split; [reflexivity|].
  split; [exact H56|].
  destruct (no_match_beyond_five_bedrooms (fun _ => midpoint) six_bedrooms 6 0 1
              (fun _ => valid_midpoint) eq_refl H56) as (props & H1 & H2 & _).
  exists props. split; [exact H1|exact H2].
Defined.

Lemma sort_by_confidence_equal (c : Q) (l : list LocationMatch) :
  Forall (fun m => confidence m = c) l -> sort_by_confidence l = l.
Proof.
  induction 1 as [|x l Hx Hl IH]; [done|].
  unfold sort_by_confidence in *. cbn [foldr]. rewrite IH.
  destruct Hl as [|y l Hy _]; [done|].
  cbn [insert_by_confidence]. rewrite Hx, Hy.
  by rewrite (proj2 (Qle_bool_iff c c) (Qle_refl c)).
Qed.

Lemma omap_names_sublist {A} (f : string * A -> option LocationMatch)
    (l : list (string * A)) :
  (forall x m, f x = Some m -> name m = x.1) ->
  name <$> omap f l `sublist_of` l.*1.
Proof.
  intros Hf. induction l as [|x l IH]; [constructor|].
  cbn. destruct (f x) as [m|] eqn:E; cbn.
  - rewrite (Hf _ _ E). by constructor.
  - by constructor.
Qed.

(** X9.  [findLocationMatches] returns at most five matches; each one
    carries the state and the average price that [AUSTRALIAN_LOCATIONS]
    holds for its name, and the matches keep the order of the table: the
    sort by confidence never moves one. *)
Theorem location_matches_from_table (location : string) :
  (length (findLocationMatches location) <= 5)%nat
  /\ Forall (fun m =>
       lookup_key (name m) AUSTRALIAN_LOCATIONS
         = Some (m_state m, averagePrice m)
       /\ confidence m = 9 # 10)
       (findLocationMatches location)
  /\ name <$> findLocationMatches location `sublist_of` AUSTRALIAN_LOCATIONS.*1.
Proof.
  unfold findLocationMatches.
  destruct (String.eqb location "").
  { split; [simpl; lia|]. split; [constructor|]. apply sublist_nil_l. }
  set (f := fun '(n, (st, avg)) => _).
  assert (forall x m, f x = Some m ->
            name m = x.1 /\ m_state m = x.2.1 /\ averagePrice m = x.2.2
            /\ confidence m = 9 # 10) as Hf.
  { intros [n [st avg]] m. unfold f.
    destruct (_ || _); [|done]. by intros [= <-]. }
  assert (Forall (fun m => confidence m = 9 # 10)
            (omap f AUSTRALIAN_LOCATIONS)) as Hconf.
  { apply Forall_forall. intros m Hm.
    apply list_elem_of_omap in Hm as (x & _ & Hx).
    by apply Hf in Hx as (_ & _ & _ & ?). }
  rewrite (sort_by_confidence_equal _ _ Hconf).
  split; [rewrite length_take; lia|]. split.
  - apply Forall_take, Forall_forall. intros m Hm.
    apply list_elem_of_omap in Hm as (x & Hin & Hx).
    apply Hf in Hx as (Hn & Hs & Ha & Hc). split; [|done].
    rewrite Hn. destruct x as [n [st avg]]. cbn in *. subst st avg.
    apply list_elem_of_In in Hin. cbn in Hin.
    repeat (destruct Hin as [[= <- <- <-]|Hin]; [reflexivity|]).
    destruct Hin.
  - rewrite fmap_take. etrans; [apply sublist_take|].
    apply omap_names_sublist. intros x m Hx. by apply Hf in Hx as (? & _).
Qed.

End PropertySearch.

(* ===================================================================== *)
(** * OpenAIRealtimeService: handlers, messages and event ids             *)
(* ===================================================================== *)

Section Events.
Import JS RealtimeEvents.

Lemma assoc_set_field k k' v fields :
  assoc k' (set_field k v fields)
  = if String.eqb k' k then Some v else assoc k' fields.
Proof.
  induction fields as [|[j w] fields IH]; simpl.
  - by destruct (String.eqb k' k).
  - destruct (String.eqb k j) eqn:Ekj; simpl.
    + apply String.eqb_eq in Ekj as ->. by destruct (String.eqb k' j).
    + destruct (String.eqb k' j) eqn:Ej.
      * apply String.eqb_eq in Ej as ->.
        rewrite String.eqb_sym in Ekj. by rewrite Ekj.
      * exact IH.
Qed.

Lemma assoc_fold_spread ks target source k :
  assoc k
    (fold_left (fun o j => match assoc j source with
                           | Some v => set_field j v o
                           | None => o
                           end) ks target)
  = if string_in k ks
    then match assoc k source with
         | Some v => Some v
         | None => assoc k target
         end
    else assoc k target.
Proof.
  revert target. induction ks as [|j ks IH]; intros target; [done|].
  cbn [fold_left]. rewrite IH. unfold string_in. cbn [existsb].
  fold (string_in k ks).
  destruct (String.eqb k j) eqn:Ekj.
  - apply String.eqb_eq in Ekj as ->. cbn [orb].
    destruct (assoc j source) as [v|] eqn:Ej.
    + rewrite assoc_set_field, String.eqb_refl. by destruct (string_in j ks).
    + by destruct (string_in j ks).
  - cbn [orb]. destruct (assoc j source) as [v|] eqn:Ej; [|done].
    by rewrite assoc_set_field, Ekj.
Qed.

Lemma own_keys_assoc fields k v :
  assoc k fields = Some v -> string_in k (own_keys fields) = true.
Proof.
  unfold string_in. rewrite existsb_exists.
  induction fields as [|[j w] fields IH]; [done|]. simpl.
  destruct (String.eqb k j) eqn:Ekj.
  - intros _. exists j. split; [by left|done].
  - intros H. destruct (IH H) as (x & Hin & Hx).
    apply String.eqb_eq in Hx as <-.
    exists k. split; [|apply String.eqb_refl].
    right. apply filter_In. split; [done|].
    by rewrite String.eqb_sym, Ekj.
Qed.

Lemma assoc_spread target source k :
  assoc k (spread target source)
  = match assoc k source with
    | Some v => Some v
    | None => assoc k target
    end.
Proof.
  unfold spread. rewrite assoc_fold_spread.
  destruct (assoc k source) as [v|] eqn:E.
  - by rewrite (own_keys_assoc _ _ _ E).
  - by destruct (string_in k (own_keys source)).
Qed.

Lemma emit_event_reads eventType fields reg h ev k :
  In (call h ev) (emit eventType (Some fields) reg) ->
  get ev k = match assoc k fields with
             | Some v => Some v
             | None => if String.eqb k "type" then Some (JStr eventType)
                       else None
             end.
Proof.
  unfold emit. rewrite in_app_iff, !in_map_iff.
  intros [(x & [= _ <-] & _)|(x & [= _ <-] & _)];
    cbn [get default]; rewrite assoc_spread; cbn [assoc];
    by destruct (assoc k fields), (String.eqb k "type").
Qed.

(** X16.  Whatever event a server message is forwarded as, every handler
    the service calls for it reads from its argument exactly the
    properties of the message, [type] included: the name of the forwarded
    event is never seen. *)
Theorem forwarded_event_keeps_message_type
    (JSON_parse : option Json -> option Json) (JSON_stringify : Json -> string)
    (fields : list (string * Json)) (t : string) (now1 now2 : N)
    (s : Service) (h : Handler) (ev : Json) :
  assoc "type" fields = Some (JStr t) ->
  t <> "response.function_call_arguments.done" ->
  In (call h ev)
     (handleRealtimeMessage JSON_parse JSON_stringify fields now1 now2 s).1.2 ->
  forall k, get ev k = assoc k fields.
Proof.
  intros Ht Hfn Hin k. unfold handleRealtimeMessage in Hin. rewrite Ht in Hin.
  assert (forall e, In (call h ev) (emit e (Some fields) (eventHandlers s)) ->
                    get ev k = assoc k fields) as Hemit.
  { intros e He. rewrite (emit_event_reads _ _ _ _ _ k He).
    destruct (assoc k fields) eqn:E; [done|].
    destruct (String.eqb k "type") eqn:Ek; [|done].
    apply String.eqb_eq in Ek as ->. congruence. }
  assert (forall l, In (call h ev)
                      (List.map (fun handler => call handler (JObj fields)) l) ->
                    get ev k = assoc k fields) as Hraw.
  { intros l Hl. apply in_map_iff in Hl as (x & [= _ <-] & _). done. }
  destruct (String.eqb t "session.created").
  { destruct (assoc "session" fields) as [[]|]; cbn in Hin;
      rewrite ?in_app_iff in Hin; intuition eauto. }
  destruct (String.eqb t "response.function_call_arguments.done") eqn:E.
  { by apply String.eqb_eq in E. }
  destruct (forwarded_as t); cbn in Hin; rewrite ?in_app_iff in Hin.
  - destruct (String.eqb t "error"); cbn in Hin; intuition (eauto; done).
  - intuition eauto.
Qed.

Lemma forwarded_event_keeps_message_type_witness :
  assoc "type" session_created = Some (JStr "session.created")
  /\ "session.created" <> "response.function_call_arguments.done"
  /\ In (call 7 (JObj (spread [("type", JStr "session_ready")] session_created)))
        (handleRealtimeMessage (fun _ => None) (fun _ => "") session_created
           0 0 (open_service (on "session_ready" 7 ∅))).1.2
  /\ get (JObj (spread [("type", JStr "session_ready")] session_created)) "type"
     = Some (JStr "session.created").
Proof.
  assert ("session.created" <> "response.function_call_arguments.done")
    as Hne by discriminate.
  assert (In (call 7 (JObj (spread [("type", JStr "session_ready")]
                              session_created)))
             (handleRealtimeMessage (fun _ => None) (fun _ => "")
                session_created 0 0
                (open_service (on "session_ready" 7 ∅))).1.2) as Hin.
  { vm_compute. left. reflexivity. }
  split; [reflexivity|]. split; [exact Hne|]. split; [exact Hin|].
  exact (forwarded_event_keeps_message_type _ _ session_created
           "session.created" 0 0 _ 7 _ eq_refl Hne Hin "type").
Defined.

Lemma handlers_for_on t t' h reg :
  handlers_for t (on t' h reg)
  = if String.eqb t t' then Set_add h (handlers_for t reg)
    else handlers_for t reg.
Proof.
  unfold on, handlers_for.
  destruct (String.eqb t t') eqn:E.
  - apply String.eqb_eq in E as ->.
    destruct (reg !! t') eqn:Hr; rewrite !lookup_insert_eq; cbn; [by rewrite Hr|done].
  - apply String.eqb_neq in E.
    destruct (reg !! t') eqn:Hr; by rewrite !lookup_insert_ne.
Qed.

Lemma handlers_for_off t t' h reg :
  handlers_for t (off t' h reg)
  = if String.eqb t t' then Set_remove h (handlers_for t reg)
    else handlers_for t reg.
Proof.
  unfold off, handlers_for.
  destruct (String.eqb t t') eqn:E.
  - apply String.eqb_eq in E as ->.
    destruct (reg !! t') eqn:Hr; [by rewrite lookup_insert_eq|by rewrite Hr].
  - apply String.eqb_neq in E.
    destruct (reg !! t') eqn:Hr; [by rewrite lookup_insert_ne|done].
Qed.

Lemma Set_add_spec h s x :
  NoDup s -> NoDup (Set_add h s) /\ (x ∈ Set_add h s <-> x = h \/ x ∈ s).
Proof.
  intros Hs. unfold Set_add. case_bool_decide as Hin.
  - split; [done|]. split; [auto|]. by intros [->|].
  - split.
    + apply NoDup_app. split; [done|]. split; [|apply NoDup_singleton].
      intros y Hy Hy'. apply list_elem_of_singleton in Hy' as ->. done.
    + rewrite elem_of_app, list_elem_of_singleton. tauto.
Qed.

Lemma Set_remove_spec h s x :
  NoDup s -> NoDup (Set_remove h s) /\ (x ∈ Set_remove h s <-> x <> h /\ x ∈ s).
Proof.
  intros Hs. unfold Set_remove. split.
  - eapply sublist_NoDup; [done|]. induction s as [|a s IH]; [done|].
    cbn. destruct (negb (a =? h)%nat); [apply sublist_skip|apply sublist_cons];
      apply IH; by inversion Hs.
  - rewrite !list_elem_of_In, filter_In, negb_true_iff, Nat.eqb_neq. tauto.
Qed.

Lemma registry_after_snoc calls r :
  registry_after (calls ++ [r]) = register r (registry_after calls).
Proof. unfold registry_after. by rewrite fold_left_app. Qed.

Lemma registry_spec calls t :
  NoDup (handlers_for t (registry_after calls))
  /\ forall h, h ∈ handlers_for t (registry_after calls)
               <-> registered t h calls = true.
Proof.
  induction calls as [|r calls [IHd IHm]] using rev_ind.
  { split; [constructor|]. intros h. cbn. split; [|done].
    unfold handlers_for, registry_after. cbn. rewrite lookup_empty. cbn.
    by intros ?%elem_of_nil. }
  rewrite registry_after_snoc. unfold registered in *.
  setoid_rewrite fold_left_app. cbn [fold_left].
  destruct r as [t' h'|t' h']; cbn [register].
  - rewrite handlers_for_on. rewrite (String.eqb_sym t' t).
    destruct (String.eqb t t') eqn:E; [|done].
    split; [by apply Set_add_spec|]. intros h.
    rewrite (proj2 (Set_add_spec h' _ h IHd)), IHm. cbn [andb].
    rewrite (Nat.eqb_sym h' h).
    destruct (Nat.eqb h h') eqn:Eh.
    + apply Nat.eqb_eq in Eh. tauto.
    + apply Nat.eqb_neq in Eh. tauto.
  - rewrite handlers_for_off. rewrite (String.eqb_sym t' t).
    destruct (String.eqb t t') eqn:E; [|done].
    split; [by apply Set_remove_spec|]. intros h.
    rewrite (proj2 (Set_remove_spec h' _ h IHd)), IHm. cbn [andb].
    rewrite (Nat.eqb_sym h' h).
    destruct (Nat.eqb h h') eqn:Eh.
    + apply Nat.eqb_eq in Eh. split; [tauto|done].
    + apply Nat.eqb_neq in Eh. tauto.
Qed.

Lemma calls_to_app h e1 e2 :
  calls_to h (e1 ++ e2) = (calls_to h e1 + calls_to h e2)%nat.
Proof. unfold calls_to. by rewrite List.filter_app, length_app. Qed.

Lemma calls_to_map h ev l :
  NoDup l ->
  calls_to h (List.map (fun handler => call handler ev) l)
  = Nat.b2n (bool_decide (h ∈ l)).
Proof.
  unfold calls_to. induction 1 as [|x l Hx Hl IH]; [done|].
  cbn [List.map List.filter is_call_to].
  destruct (Nat.eqb x h) eqn:E.
  - apply Nat.eqb_eq in E as ->. cbn [length]. rewrite IH.
    rewrite (bool_decide_eq_false_2 _ Hx).
    rewrite bool_decide_eq_true_2 by left. done.
  - apply Nat.eqb_neq in E. rewrite IH.
    apply f_equal, bool_decide_ext. rewrite elem_of_cons. split; [auto|].
    by intros [->|].
Qed.

Lemma calls_to_handlers h ev t calls :
  calls_to h (List.map (fun handler => call handler ev)
                (handlers_for t (registry_after calls)))
  = Nat.b2n (registered t h calls).
Proof.
  destruct (registry_spec calls t) as [Hd Hm].
  rewrite calls_to_map by done. f_equal.
  destruct (registered t h calls) eqn:E.
  - apply bool_decide_eq_true_2, Hm, E.
  - apply bool_decide_eq_false_2. rewrite Hm, E. done.
Qed.

Lemma calls_to_emit h e data calls :
  calls_to h (emit e data (registry_after calls))
  = (Nat.b2n (registered e h calls) + Nat.b2n (registered "*" h calls))%nat.
Proof. unfold emit. by rewrite calls_to_app, !calls_to_handlers. Qed.

(** X17.  After any sequence of [on] and [off] calls, [emit] calls a
    handler once if its last registration for the event was an [on], and
    once more if its last registration for ['*'] was: registering twice
    does not double the calls, and [off] ends them. *)
Theorem emit_calls_registered_handlers
    (calls : list Registration) (eventType : string)
    (data : option (list (string * Json))) (h : Handler) :
  calls_to h (emit eventType data (registry_after calls))
  = (Nat.b2n (registered eventType h calls)
     + Nat.b2n (registered "*" h calls))%nat.
Proof. apply calls_to_emit. Qed.

(** X18.  A server message that the service forwards under another name
    reaches a handler once for the message type, once for the forwarded
    name and twice for ['*']; an [error] message therefore calls each
    ['error'] handler twice. *)
Theorem forwarded_message_is_delivered_twice
    (JSON_parse : option Json -> option Json) (JSON_stringify : Json -> string)
    (fields : list (string * Json)) (t e : string) (now1 now2 : N)
    (s : Service) (calls : list Registration) (h : Handler) :
  assoc "type" fields = Some (JStr t) ->
  forwarded_as t = Some e ->
  t <> "session.created" ->
  eventHandlers s = registry_after calls ->
  calls_to h
    (handleRealtimeMessage JSON_parse JSON_stringify fields now1 now2 s).1.2
  = (Nat.b2n (registered t h calls) + Nat.b2n (registered e h calls)
     + 2 * Nat.b2n (registered "*" h calls))%nat.
Proof.
  intros Ht He Hsc Hreg. unfold handleRealtimeMessage. rewrite Ht, Hreg.
  destruct (String.eqb t "session.created") eqn:E1.
  { by apply String.eqb_eq in E1. }
  destruct (String.eqb t "response.function_call_arguments.done") eqn:E2.
  { apply String.eqb_eq in E2 as ->. done. }
  rewrite He. cbn [fst snd].
  rewrite !calls_to_app, !calls_to_handlers, calls_to_emit.
  assert (calls_to h (if String.eqb t "error"
                      then [console_error "Realtime API error:"] else []) = 0%nat)
    as -> by (by destruct (String.eqb t "error")).
  lia.
Qed.

Lemma forwarded_message_is_delivered_twice_witness :
  assoc "type" error_message = Some (JStr "error")
  /\ forwarded_as "error" = Some "error"
  /\ "error" <> "session.created"
  /\ calls_to 3
       (handleRealtimeMessage (fun _ => None) (fun _ => "") error_message 0 0
          (open_service (registry_after [On "error" 3; On "error" 3]))).1.2
     = 2%nat.
Proof.
  assert ("error" <> "session.created") as Hne by discriminate.
  split; [reflexivity|]. split; [reflexivity|]. split; [exact Hne|].
  exact (forwarded_message_is_delivered_twice (fun _ => None) (fun _ => "")
           error_message "error" "error" 0 0
           (open_service (registry_after [On "error" 3; On "error" 3]))
           [On "error" 3; On "error" 3] 3 eq_refl eq_refl Hne eq_refl).
Defined.

Lemma pretty_N_char_plain x : pretty_N_char x <> "_"%char.
Proof. unfold pretty_N_char. repeat case_match; discriminate. Qed.

Lemma pretty_N_go_plain x s : plain s -> plain (pretty_N_go x s).
Proof.
  revert s. induction (N.lt_wf_0 x) as [x _ IH]. intros s Hs.
  destruct (decide (x = 0%N)) as [->|Hx].
  { by rewrite pretty_N_go_0. }
  rewrite pretty_N_go_step by lia.
  apply IH.
  - apply N.div_lt; lia.
  - intros c [<-|Hc]; [apply pretty_N_char_plain|by apply Hs].
Qed.

Lemma pretty_N_plain (x : N) : plain (pretty x).
Proof.
  unfold pretty, pretty_N. case_decide.
  - intros c [<-|[]]. discriminate.
  - apply pretty_N_go_plain. intros c [].
Qed.

Lemma underscore_split a1 b1 a2 b2 :
  plain a1 -> plain a2 ->
  a1 +:+ "_" +:+ b1 = a2 +:+ "_" +:+ b2 -> a1 = a2 /\ b1 = b2.
Proof.
  revert a2. induction a1 as [|c a1 IH]; intros [|d a2] H1 H2 Heq.
  - by injection Heq.
  - injection Heq as Hd _. exfalso. apply (H2 d); [by left|done].
  - injection Heq as Hc _. exfalso. apply (H1 c); [by left|done].
  - injection Heq as -> Heq.
    destruct (IH a2) as [-> ->]; [| |done|done].
    + intros x Hx. apply H1. by right.
    + intros x Hx. apply H2. by right.
Qed.

Lemma eventId_inj now1 c1 now2 c2 :
  eventId now1 c1 = eventId now2 c2 -> now1 = now2 /\ c1 = c2.
Proof.
  unfold eventId. intros H. apply String.app_inj in H.
  apply underscore_split in H as [Hn Hc]; try apply pretty_N_plain.
  split; [by apply (inj pretty) in Hn|by apply (inj pretty) in Hc].
Qed.

(** X19.  [sendTextMessage] on an open socket sends exactly two messages,
    the user's text and then a [response.create], under two different
    event ids, and advances the id counter by two; ids of different
    counters or clock readings never coincide. *)
Theorem text_message_sends_two_events
    (text : string) (language : option string) (now1 now2 : N) (s : Service) :
  is_open s = true ->
  exists item,
    (sendTextMessage text language now1 now2 s).2
    = [ws_send
         (JObj [("event_id", JStr (eventId now1 (eventIdCounter s + 1)));
                ("type", JStr "conversation.item.create"); ("item", item)]);
       ws_send (response_create (eventId now2 (eventIdCounter s + 2)))]
    /\ eventId now1 (eventIdCounter s + 1) <> eventId now2 (eventIdCounter s + 2)
    /\ eventIdCounter (sendTextMessage text language now1 now2 s).1
       = (eventIdCounter s + 2)%nat.
Proof.
  intros Hopen. unfold sendTextMessage, generateEventId, sendMessage.
  cbn [fst snd]. unfold is_open in *. cbn [ws eventIdCounter].
  rewrite Hopen. cbn [app].
  replace (S (eventIdCounter s)) with (eventIdCounter s + 1)%nat by lia.
  replace (S (eventIdCounter s + 1)) with (eventIdCounter s + 2)%nat by lia.
  eexists. split; [reflexivity|]. split; [|done].
  intros H. apply eventId_inj in H. lia.
Qed.

Lemma text_message_sends_two_events_witness :
  is_open (open_service ∅) = true
  /\ eventIdCounter
       (sendTextMessage "two bedrooms in Bondi" (Some "en") 1700000000000
          1700000000000 (open_service ∅)).1 = 2%nat.
Proof.
  split; [reflexivity|].
  destruct (text_message_sends_two_events "two bedrooms in Bondi" (Some "en")
              1700000000000 1700000000000 (open_service ∅) eq_refl)
    as (item & _ & _ & H).
  exact H.
Defined.

Lemma binary_from_spec fuel i bytes :
  (length bytes <= i + fuel)%nat ->
  binary_from fuel i bytes = fromCharCodes (drop i bytes).
Proof.
  assert (0 < chunkSize)%nat as Hc by (unfold chunkSize; lia).
  revert i. induction fuel as [|fuel IH]; intros i Hlen.
  - cbn. by rewrite drop_ge by lia.
  - cbn [binary_from]. destruct (i <? length bytes)%nat eqn:E.
    + rewrite IH by lia. unfold fromCharCodes.
      transitivity (string_of_list_ascii
                      (take chunkSize (drop i bytes)
                       ++ drop chunkSize (drop i bytes)));
        [|by rewrite take_drop].
      rewrite drop_drop.
      generalize (take chunkSize (drop i bytes))
                 (drop (i + chunkSize) bytes).
      intros a b. induction a as [|x a IHa]; [done|].
      cbn [string_of_list_ascii app]. by rewrite <- IHa.
    + apply Nat.ltb_ge in E. by rewrite drop_ge by lia.
Qed.

(** X20.  The chunks of [arrayBufferToBase64] are invisible: the string
    handed to [btoa] holds one character per byte of the buffer, in
    order, whatever the buffer's length. *)
Theorem base64_encodes_every_byte (btoa : string -> string) (bytes : list ascii) :
  arrayBufferToBase64 btoa bytes = btoa (fromCharCodes bytes).
Proof.
  unfold arrayBufferToBase64. by rewrite binary_from_spec by lia.
Qed.

(** X21.  A [search_properties] call whose arguments parse is handed to
    the handlers and answers nothing itself; one whose arguments do not
    parse calls no handler and, on an open socket, sends an error result
    under the call's own id followed by a [response.create]. *)
Theorem function_call_forwards_or_answers
    (JSON_parse : option Json -> option Json) (JSON_stringify : Json -> string)
    (message : Json) (now1 now2 : N) (s : Service) :
  get message "name" = Some (JStr "search_properties") ->
  is_open s = true ->
  let effects :=
    (handleFunctionCall JSON_parse JSON_stringify message now1 now2 s).2 in
  match JSON_parse (get message "arguments") with
  | Some args =>
      sent effects = []
      /\ forall h ev, In (call h ev) effects ->
           get ev "type" = Some (JStr "property_search_requested")
           /\ get ev "searchParams" = Some args
           /\ get ev "callId" = get message "call_id"
  | None =>
      (forall h, calls_to h effects = 0%nat)
      /\ exists item,
           sent effects
           = [JObj [("event_id", JStr (eventId now1 (eventIdCounter s + 1)));
                    ("type", JStr "conversation.item.create"); ("item", item)];
              response_create (eventId now2 (eventIdCounter s + 2))]
           /\ get item "call_id" = get message "call_id"
           /\ get item "output" = Some (JStr (JSON_stringify invalid_search))
  end.
Proof.
  intros Hname Hopen effects. unfold effects, handleFunctionCall.
  rewrite Hname. cbn [String.eqb Ascii.eqb Bool.eqb].
  change (String.eqb "search_properties" "search_properties") with true.
  cbn iota.
  destruct (JSON_parse (get message "arguments")) as [args|].
  - cbn [snd]. split.
    + unfold emit, sent. rewrite omap_app.
      assert (forall ev l, omap (fun e => match e with
                                       | ws_send m => Some m
                                       | _ => None
                                       end)
                          (List.map (fun handler => call handler ev) l) = [])
        as H by (intros ev l; by induction l).
      by rewrite !H.
    + intros h ev Hin.
      rewrite !(emit_event_reads _ _ _ _ _ _ Hin). cbn.
      by destruct (get message "call_id").
  - unfold sendFunctionResult, generateEventId, sendMessage.
    unfold is_open in *. cbn [ws eventIdCounter fst snd]. rewrite Hopen.
    replace (S (eventIdCounter s)) with (eventIdCounter s + 1)%nat by lia.
    replace (S (eventIdCounter s + 1)) with (eventIdCounter s + 2)%nat by lia.
    cbn [snd]. split; [done|].
    eexists. split; [reflexivity|]. cbn.
    by destruct (get message "call_id").
Qed.

Lemma function_call_forwards_or_answers_witness :
  get (JObj [("name", JStr "search_properties"); ("call_id", JStr "call_9")])
      "name" = Some (JStr "search_properties")
  /\ is_open (open_service ∅) = true
  /\ forall h,
       calls_to h
         (handleFunctionCall (fun _ => None) (fun _ => "{}")
            (JObj [("name", JStr "search_properties");
                   ("call_id", JStr "call_9")]) 5 6 (open_service ∅)).2
       = 0%nat.
Proof.
  split; [reflexivity|]. split; [reflexivity|].
  exact (proj1 (function_call_forwards_or_answers (fun _ => None)
                  (fun _ => "{}")
                  (JObj [("name", JStr "search_properties");
                         ("call_id", JStr "call_9")]) 5 6 (open_service ∅)
                  eq_refl eq_refl)).
Defined.

End Events.

(* ===================================================================== *)
(** * VoiceSearch: tags, price range and histogram                        *)
(* ===================================================================== *)

Section Controls.
Import JS VoiceSearch.

Lemma sameValueZero_string s a :
  sameValueZero (JStr s) a = true <-> a = JStr s.
Proof.
  destruct a; simpl; try (split; [discriminate|congruence]).
  rewrite String.eqb_eq. split; congruence.
Qed.

Lemma Set_has_app s t x : Set_has (s ++ t) x = Set_has s x || Set_has t x.
Proof. unfold Set_has. apply existsb_app. Qed.

Lemma Set_has_fold items acc s :
  Set_has
    (fold_left (fun acc x => if Set_has acc x then acc else acc ++ [x])
       items acc) (JStr s)
  = Set_has acc (JStr s) || Set_has items (JStr s).
Proof.
  revert acc. induction items as [|a items IH]; intros acc.
  { simpl. by rewrite orb_false_r. }
  cbn [fold_left]. rewrite IH.
  change (Set_has (a :: items) (JStr s))
    with (sameValueZero (JStr s) a || Set_has items (JStr s)).
  destruct (Set_has acc a) eqn:Ha.
  - destruct (sameValueZero (JStr s) a) eqn:Hs; [|done].
    apply sameValueZero_string in Hs as ->. by rewrite Ha.
  - rewrite Set_has_app. cbn. rewrite orb_false_r. by rewrite orb_assoc.
Qed.

Lemma Set_has_of_list items s :
  Set_has (Set_of_list items) (JStr s) = Set_has items (JStr s).
Proof. unfold Set_of_list. by rewrite Set_has_fold. Qed.

Lemma Set_has_delete set s t :
  Set_has (Set_delete set (JStr t)) (JStr s)
  = negb (String.eqb s t) && Set_has set (JStr s).
Proof.
  induction set as [|a set IH]; [by rewrite andb_false_r|].
  unfold Set_delete in *. cbn [List.filter].
  change (Set_has (a :: set) (JStr s))
    with (sameValueZero (JStr s) a || Set_has set (JStr s)).
  destruct (sameValueZero (JStr t) a) eqn:Ht; cbn [negb].
  - rewrite IH. apply sameValueZero_string in Ht as ->. cbn.
    destruct (String.eqb s t); done.
  - change (Set_has (a :: ?l) (JStr s))
      with (sameValueZero (JStr s) a || Set_has l (JStr s)).
    rewrite IH. destruct (String.eqb s t) eqn:Est; cbn [negb andb]; [|done].
    apply String.eqb_eq in Est as ->. by rewrite Ht.
Qed.

(** X10.  [handleToggleTag] flips the membership of the tag in [tags] and
    of no other string, leaves every other search parameter as it was, and
    marks the tag as glowing. *)
Theorem toggle_tag_flips_membership
    (c : Closure) (tagKey : string) (st : Component) (items : list Json) :
  searchParamsState st !! "tags" = Some (JArr items) ->
  exists st' tags',
    handleToggleTag c tagKey st = Some st'
    /\ searchParamsState st' !! "tags" = Some (JArr tags')
    /\ (forall s, Set_has tags' (JStr s)
                  = if String.eqb s tagKey
                    then negb (Set_has items (JStr tagKey))
                    else Set_has items (JStr s))
    /\ (forall k, k <> "tags" ->
          searchParamsState st' !! k = searchParamsState st !! k)
    /\ tagKey ∈ glowingParams st'.
Proof.
  intros Htags. unfold handleToggleTag, toggle_tag, tags_or_empty.
  assert (searchParamsState (switchToRealSearch c st) = searchParamsState st)
    as -> by (unfold switchToRealSearch; by destruct (c_isDemoMode c)).
  rewrite Htags. cbn [truthy new_Set].
  eexists _, _. split; [reflexivity|]. cbn [searchParamsState glowingParams].
  split; [by rewrite lookup_insert_eq|]. split; [|split].
  - intros s. destruct (Set_has (Set_of_list items) (JStr tagKey)) eqn:Hhas.
    + rewrite Set_has_delete, Set_has_of_list.
      rewrite Set_has_of_list in Hhas. rewrite Hhas.
      by destruct (String.eqb s tagKey).
    + rewrite Set_has_app, Set_has_of_list.
      rewrite Set_has_of_list in Hhas. rewrite Hhas. cbn.
      rewrite orb_false_r.
      destruct (String.eqb s tagKey) eqn:E.
      * apply String.eqb_eq in E as ->. by rewrite Hhas.
      * by rewrite orb_false_r.
  - intros k Hk. by rewrite lookup_insert_ne.
  - set_solver.
Qed.

Lemma toggle_tag_flips_membership_witness :
  searchParamsState demo_state !! "tags" = Some (JArr [JStr "open-house"])
  /\ exists st', handleToggleTag demo_closure "open-house" demo_state = Some st'
                 /\ "open-house" ∈ glowingParams st'.
Proof.
  split; [reflexivity|].
  destruct (toggle_tag_flips_membership demo_closure "open-house" demo_state
              [JStr "open-house"] eq_refl) as (st' & _ & H & _ & _ & _ & Hg).
  exists st'. split; [exact H|exact Hg].
Defined.

Lemma smooth_spec (lo hi previous : Q) (data : list Q) :
  (lo <= previous <= hi)%Q ->
  Forall (fun x => lo <= x <= hi)%Q data ->
  length (smooth previous data) = length data
  /\ Forall (fun x => lo <= x <= hi)%Q (smooth previous data)
  /\ last (smooth previous data) = last data.
Proof.
  revert previous. induction data as [|current rest IH]; intros previous Hp Hd.
  { done. }
  destruct rest as [|next rest]; [done|].
  inversion Hd as [|? ? Hc Hrest]; subst.
  inversion Hrest as [|? ? Hn _]; subst.
  assert (lo <= (previous + current + next) / 3 <= hi)%Q as Hs.
  { unfold Qdiv. change (/ 3)%Q with (1 # 3)%Q. lra. }
  destruct (IH _ Hs Hrest) as (Hlen & Hall & Hlast).
  change (smooth previous (current :: next :: rest))
    with (((previous + current + next) / 3)%Q
          :: smooth ((previous + current + next) / 3)%Q (next :: rest)).
  split; [cbn [length]; by rewrite Hlen|]. split; [by constructor|].
  destruct (smooth _ (next :: rest)) as [|z zs]; [done|].
  exact Hlast.
Qed.

(** X11.  [generateHistogramData] keeps the number of bars, never leaves
    the interval that holds the random values it started from, and keeps
    the first and the last bar as drawn. *)
Theorem histogram_stays_in_range (lo hi : Q) (data : list Q) :
  Forall (fun x => lo <= x <= hi)%Q data ->
  length (generateHistogramData data) = length data
  /\ Forall (fun x => lo <= x <= hi)%Q (generateHistogramData data)
  /\ head (generateHistogramData data) = head data
  /\ last (generateHistogramData data) = last data.
Proof.
  intros Hd. destruct data as [|first rest]; [done|].
  inversion Hd as [|? ? Hf Hrest]; subst.
  destruct (smooth_spec lo hi first rest Hf Hrest) as (Hlen & Hall & Hlast).
  cbn [generateHistogramData]. split; [cbn [length]; by rewrite Hlen|].
  split; [by constructor|]. split; [done|].
  destruct rest as [|y rest]; [done|].
  destruct (smooth first (y :: rest)) as [|z zs]; [done|].
  exact Hlast.
Qed.

Lemma histogram_stays_in_range_witness :
  Forall (fun x => 0 <= x <= 1)%Q [1 # 2; 1 # 4; 3 # 4; 1 # 8]%Q
  /\ length (generateHistogramData [1 # 2; 1 # 4; 3 # 4; 1 # 8]%Q) = 4%nat.
Proof.
  assert (Forall (fun x => 0 <= x <= 1)%Q [1 # 2; 1 # 4; 3 # 4; 1 # 8]%Q) as H.
  { repeat constructor; vm_compute; discriminate. }
  split; [exact H|].
  exact (proj1 (histogram_stays_in_range 0 1 _ H)).
Defined.

(** X12.  After [handlePriceChange] from a handler of the current render,
    the slider is handed exactly the new range, also when a bound is 0 and
    whatever the listing type; no other search parameter changes and the
    component has left the demo. *)
Theorem price_change_is_displayed
    (c : Closure) (newRange : Q * Q) (st : Component) (demo : SearchParams) :
  c_isDemoMode c = isDemoMode st ->
  let st' := handlePriceChange c newRange st in
  priceValue (displayedSearchParams st' demo)
    = (JNum newRange.1, JNum newRange.2)
  /\ isDemoMode st' = false
  /\ "priceSlider" ∈ glowingParams st'
  /\ forall k, k <> "priceMin" -> k <> "priceMax" ->
       searchParamsState st' !! k = searchParamsState st !! k.
Proof.
  intros Hc st'.
  assert (isDemoMode st' = false) as Hdemo.
  { unfold st', handlePriceChange, switchToRealSearch. rewrite Hc.
    by destruct (isDemoMode st) eqn:E. }
  assert (searchParamsState (switchToRealSearch c st) = searchParamsState st)
    as Hsame by (unfold switchToRealSearch; by destruct (c_isDemoMode c)).
  split; [|split; [done|split]].
  - unfold displayedSearchParams. rewrite Hdemo.
    unfold priceValue, st', handlePriceChange. cbn [searchParamsState].
    rewrite lookup_insert_eq, lookup_insert_ne, lookup_insert_eq by done.
    done.
  - unfold st', handlePriceChange. cbn [glowingParams]. set_solver.
  - intros k H1 H2. unfold st', handlePriceChange. cbn [searchParamsState].
    by rewrite !lookup_insert_ne, Hsame.
Qed.

Lemma price_change_is_displayed_witness :
  c_isDemoMode demo_closure = isDemoMode demo_state
  /\ priceValue (displayedSearchParams
                   (handlePriceChange demo_closure (0, 750000)%Q demo_state) ∅)
     = (JNum 0, JNum 750000).
Proof.
  split; [reflexivity|].
  exact (proj1 (price_change_is_displayed demo_closure (0, 750000)%Q
                  demo_state ∅ eq_refl)).
Defined.

(** X29.  [handleCancel] keeps the tags and nothing else: [tags] is what
    it was, every other search parameter is back at its initial value,
    the status is ['idle'], nothing glows and the demo is over. *)
Theorem cancel_keeps_only_tags (c : Closure) (st : Component) :
  c_isDemoMode c = isDemoMode st ->
  let st' := (handleCancel c st).1 in
  searchParamsState st' !! "tags" = searchParamsState st !! "tags"
  /\ (forall k, k <> "tags" ->
        searchParamsState st' !! k = object_of initialSearchParams !! k)
  /\ status st' = Idle /\ glowingParams st' = ∅ /\ isDemoMode st' = false
  /\ recognitionRef st' = false.
Proof.
  intros Hc st'.
  assert (searchParamsState (switchToRealSearch c st) = searchParamsState st)
    as Hsame by (unfold switchToRealSearch; by destruct (c_isDemoMode c)).
  unfold st', handleCancel. cbn [fst searchParamsState status glowingParams
                                isDemoMode recognitionRef].
  rewrite Hsame. unfold reset_keeping_tags.
  split; [|split].
  - destruct (searchParamsState st !! "tags") as [t|] eqn:E.
    + by rewrite lookup_insert_eq.
    + by rewrite lookup_delete_eq.
  - intros k Hk. destruct (searchParamsState st !! "tags") as [t|].
    + by rewrite lookup_insert_ne.
    + by rewrite lookup_delete_ne.
  - repeat split. unfold switchToRealSearch. rewrite Hc.
    by destruct (isDemoMode st) eqn:E.
Qed.

Lemma cancel_keeps_only_tags_witness :
  c_isDemoMode demo_closure = isDemoMode demo_state
  /\ searchParamsState (handleCancel demo_closure demo_state).1 !! "tags"
     = Some (JArr [JStr "open-house"]).
Proof.
  split; [reflexivity|].
  exact (proj1 (cancel_keeps_only_tags demo_closure demo_state eq_refl)).
Defined.

End Controls.

(* ===================================================================== *)
(** * PriceRangeSlider: positions, dragging and the step grid             *)
(* ===================================================================== *)

Section Track.
Import JS PriceRangeSlider.
Local Open Scope Q_scope.

Lemma valueToPercent_bounds value lo hi :
  lo < hi -> lo <= value <= hi -> 0 <= valueToPercent value lo hi <= 100.
Proof.
  intros Hlt [H1 H2]. unfold valueToPercent.
  destruct (Qeq_bool hi lo) eqn:E; [lra|].
  assert (0 < hi - lo) as Hd by lra.
  assert (0 <= (value - lo) / (hi - lo)) as Ha.
  { apply Qle_shift_div_l; [done|]. lra. }
  assert ((value - lo) / (hi - lo) <= 1) as Hb.
  { apply Qle_shift_div_r; [done|]. lra. }
  lra.
Qed.

Lemma valueToPercent_increasing a b lo hi :
  lo < hi -> a < b -> valueToPercent a lo hi < valueToPercent b lo hi.
Proof.
  intros Hlt Hab. unfold valueToPercent.
  destruct (Qeq_bool hi lo) eqn:E.
  { apply Qeq_bool_iff in E. lra. }
  assert (0 < / (hi - lo)) as Hinv by (apply Qinv_lt_0_compat; lra).
  unfold Qdiv. nra.
Qed.

(** X13.  With both thumbs on the track and in order, the two positions
    handed to the style sheet lie between 0% and 100%, the minimum thumb
    strictly left of the maximum thumb. *)
Theorem thumbs_positioned_on_track (listingType : option string) (st : Slider) :
  on_track listingType st -> ordered listingType st ->
  0 <= minPercent listingType st
  /\ minPercent listingType st < maxPercent listingType st
  /\ maxPercent listingType st <= 100.
Proof.
  destruct (track_has_room listingType) as [Hs Hb].
  unfold on_track, ordered, minPercent, maxPercent. intros [H1 H2] H3.
  assert (effectiveMin listingType < effectiveMax listingType) as Hlt by lra.
  split; [apply valueToPercent_bounds; [done|lra]|].
  split; [apply valueToPercent_increasing; [done|lra]|].
  apply valueToPercent_bounds; [done|lra].
Qed.

Lemma thumbs_positioned_on_track_witness :
  on_track None full_range /\ ordered None full_range
  /\ minPercent None full_range < maxPercent None full_range.
Proof.
  assert (on_track None full_range) as Ht
    by (split; vm_compute; discriminate).
  assert (ordered None full_range) as Ho
    by (vm_compute; discriminate).
  split; [exact Ht|]. split; [exact Ho|].
  exact (proj1 (proj2 (thumbs_positioned_on_track None full_range Ht Ho))).
Defined.









End Track.

(* ===================================================================== *)
(** * The voice route after Gemini, and the component that reads it       *)
(* ===================================================================== *)

Section Replies.
Import JS VoiceProcessRoute.

(** X23.  Whatever goes wrong after the request to Gemini was sent (the
    request fails, the answer is not [ok], its body is not JSON or is
    [null], or the candidate text does not parse), the route answers 500
    with an [error] body, and [VoiceSearch] logs the error, returns to
    listening or idle and leaves the search parameters alone. *)
Theorem gemini_failure_changes_nothing
    (JSON_parse : Json -> option Json) (outcome : GeminiOutcome)
    (c : VoiceSearch.Closure) (st : VoiceSearch.Component) :
  match outcome with
  | gemini_ok (Some data) =>
      data = JNull
      \/ exists text, extractedText data = Some text
                      /\ truthy text = true /\ JSON_parse text = None
  | _ => True
  end ->
  (exists msg, POST_resume JSON_parse outcome = (500%nat, error_body msg))
  /\ VoiceSearch.processTranscript_resume c
       (received (POST_resume JSON_parse outcome)) st
     = (VoiceSearch.set_status (VoiceSearch.resting_status st) st,
        [VoiceSearch.console_error "Error processing transcript:"]).
Proof.
  intros H.
  assert (exists msg, POST_resume JSON_parse outcome = (500%nat, error_body msg))
    as [msg Hmsg].
  { unfold POST_resume. destruct outcome as [|[e|]|[data|]]; eauto.
    destruct H as [->|(text & Ht & Htruthy & Hparse)]; [eauto|].
    destruct data; eauto; rewrite Ht, Htruthy, Hparse; eauto. }
  split; [eauto|]. by rewrite Hmsg.
Qed.

Lemma gemini_failure_changes_nothing_witness :
  (candidate (JStr "{oops") = JNull
   \/ exists text, extractedText (candidate (JStr "{oops")) = Some text
                   /\ truthy text = true /\ (fun _ : Json => @None Json) text = None)
  /\ POST_resume (fun _ => None) (gemini_ok (Some (candidate (JStr "{oops"))))
     = (500%nat, error_body "Internal server error").
Proof.
  assert (candidate (JStr "{oops") = JNull
          \/ exists text, extractedText (candidate (JStr "{oops")) = Some text
                          /\ truthy text = true
                          /\ (fun _ : Json => @None Json) text = None) as H.
  { right. exists (JStr "{oops"). by repeat split. }
  split; [exact H|].
  destruct (gemini_failure_changes_nothing (fun _ => None)
              (gemini_ok (Some (candidate (JStr "{oops"))))
              VoiceSearch.sample_closure VoiceSearch.sample_state H)
    as [_ _].
  reflexivity.
Defined.

(** X24.  An [ok] answer of Gemini without a candidate text is answered
    by the route with status 200 and an empty object, which [VoiceSearch]
    takes without logging an error: no search parameter changes and the
    status returns to listening or idle. *)
Theorem empty_answer_changes_nothing
    (JSON_parse : Json -> option Json) (data : Json)
    (c : VoiceSearch.Closure) (st : VoiceSearch.Component) :
  data <> JNull ->
  match extractedText data with
  | Some text => truthy text = false
  | None => True
  end ->
  POST_resume JSON_parse (gemini_ok (Some data)) = (200%nat, JObj [])
  /\ VoiceSearch.processTranscript_resume c
       (received (POST_resume JSON_parse (gemini_ok (Some data)))) st
     = (VoiceSearch.set_status (VoiceSearch.resting_status st) st, []).
Proof.
  intros Hnull Htext.
  assert (POST_resume JSON_parse (gemini_ok (Some data)) = (200%nat, JObj []))
    as Hreply.
  { unfold POST_resume. destruct data; try done;
      destruct (extractedText _) as [text|]; try done; by rewrite Htext. }
  split; [done|]. by rewrite Hreply.
Qed.

Lemma empty_answer_changes_nothing_witness :
  JObj [("candidates", JArr [])] <> JNull
  /\ match extractedText (JObj [("candidates", JArr [])]) with
     | Some text => truthy text = false
     | None => True
     end
  /\ POST_resume (fun _ => None) (gemini_ok (Some (JObj [("candidates", JArr [])])))
     = (200%nat, JObj []).
Proof.
  assert (JObj [("candidates", JArr [])] <> JNull) as H1
    by (intros H; discriminate H).
  split; [exact H1|]. split; [exact I|].
  exact (proj1 (empty_answer_changes_nothing (fun _ => None)
                  (JObj [("candidates", JArr [])])
                  VoiceSearch.sample_closure VoiceSearch.sample_state H1 I)).
Defined.

End Replies.

(* ===================================================================== *)
(** * EnhancedRealtimeVoiceSearch: what the assistant is told             *)
(* ===================================================================== *)

Section Answers.
Import JS AustralianPropertyService RealtimeSearch.
Local Open Scope Q_scope.



End Answers.

(* ===================================================================== *)
(** * EnhancedVoiceSearch and InstantVoiceSearch: handlers of the first
      render                                                              *)
(* ===================================================================== *)

Section Closures.
Import JS.

Lemma instant_step_invariant s e :
  InstantVoiceSearch.pending s = false ->
  Forall (fun x => InstantVoiceSearch.is_request x = false
                   /\ InstantVoiceSearch.is_result x = false)
         (InstantVoiceSearch.effects s) ->
  (InstantVoiceSearch.state (InstantVoiceSearch.component s)
     = InstantVoiceSearch.Initializing
   \/ InstantVoiceSearch.state (InstantVoiceSearch.component s)
      = InstantVoiceSearch.Listening) ->
  let s' := InstantVoiceSearch.step InstantVoiceSearch.mount_render s e in
  InstantVoiceSearch.pending s' = false
  /\ Forall (fun x => InstantVoiceSearch.is_request x = false
                      /\ InstantVoiceSearch.is_result x = false)
            (InstantVoiceSearch.effects s')
  /\ (InstantVoiceSearch.state (InstantVoiceSearch.component s')
        = InstantVoiceSearch.Initializing
      \/ InstantVoiceSearch.state (InstantVoiceSearch.component s')
         = InstantVoiceSearch.Listening).
Proof.
  intros Hp He Hs. destruct s as [st p effs]. cbn in *. subst p.
  destruct e as [|results| |error|outcome|]; cbn; try by auto.
  - split; [done|]. split; [by rewrite app_nil_r|done].
  - split; [done|]. split; [|done].
    apply Forall_app. split; [done|].
    destruct (String.eqb error "no-speech"); repeat constructor.
  - split; [done|]. split; [|done].
    apply Forall_app. split; [done|]. repeat constructor.
Qed.

(** X25.  [InstantVoiceSearch] never processes what was said.  Its
    recognition handlers belong to the first render, whose [state] is
    ['initializing'], so [onend] never calls [processCompleteTranscript]:
    whatever happens after the mount, no request is sent, [onResults] is
    never called, and the state stays ['initializing'] or ['listening']. *)
Theorem instant_search_never_requests (events : list InstantVoiceSearch.Event) :
  InstantVoiceSearch.pending (InstantVoiceSearch.mounted events) = false
  /\ Forall (fun x => InstantVoiceSearch.is_request x = false
                      /\ InstantVoiceSearch.is_result x = false)
            (InstantVoiceSearch.effects (InstantVoiceSearch.mounted events))
  /\ (InstantVoiceSearch.state
        (InstantVoiceSearch.component (InstantVoiceSearch.mounted events))
        = InstantVoiceSearch.Initializing
      \/ InstantVoiceSearch.state
           (InstantVoiceSearch.component (InstantVoiceSearch.mounted events))
         = InstantVoiceSearch.Listening).
Proof.
  unfold InstantVoiceSearch.mounted.
  induction events as [|e events IH] using rev_ind.
  - cbn. split; [done|]. split; [constructor|by left].
  - rewrite fold_left_app. cbn [fold_left].
    destruct IH as (H1 & H2 & H3). by apply instant_step_invariant.
Qed.

Lemma enhanced_step_invariant s e :
  EnhancedVoiceSession.handlers s = EnhancedVoiceSession.mount_render ->
  EnhancedVoiceSession.pending s = false ->
  Forall (fun x => EnhancedVoiceSession.is_request x = false
                   /\ EnhancedVoiceSession.is_result x = false)
         (EnhancedVoiceSession.effects s) ->
  EnhancedVoiceSession.is_confirming
    (EnhancedVoiceSearch.state (EnhancedVoiceSession.component s)) = false ->
  EnhancedVoiceSearch.state (EnhancedVoiceSession.component s)
    <> EnhancedVoiceSearch.Complete ->
  let s' := EnhancedVoiceSession.step s e in
  EnhancedVoiceSession.handlers s' = EnhancedVoiceSession.mount_render
  /\ EnhancedVoiceSession.pending s' = false
  /\ Forall (fun x => EnhancedVoiceSession.is_request x = false
                      /\ EnhancedVoiceSession.is_result x = false)
            (EnhancedVoiceSession.effects s')
  /\ EnhancedVoiceSession.is_confirming
       (EnhancedVoiceSearch.state (EnhancedVoiceSession.component s')) = false
  /\ EnhancedVoiceSearch.state (EnhancedVoiceSession.component s')
     <> EnhancedVoiceSearch.Complete.
Proof.
  intros Hh Hp He Hc Hd. destruct s as [st h p effs]. cbn in *. subst h p.
  destruct e as [|results| |error|outcome| | |]; cbn; try by auto.
  - unfold EnhancedVoiceSession.onresult.
    destruct (negb _ && _); cbn.
    + repeat split; try done. apply Forall_app. split; [done|].
      repeat constructor.
    + rewrite app_nil_r. repeat split; done.
  - repeat split; try done. apply Forall_app. split; [done|].
    destruct (String.eqb error "no-speech"); repeat constructor.
  - by rewrite Hc.
  - by rewrite Hc.
  - repeat split; try done. apply Forall_app. split; [done|].
    repeat constructor.
Qed.

(** X26.  [EnhancedVoiceSearch] never sends a request either.  The
    handlers of its recognition read the first render: a spoken
    confirmation processes that render's empty transcript and closes the
    dialog, and [onend] never reaches ['confirming'], the only state in
    which the two buttons exist.  So no request is sent, [onResults] is
    never called, and the states ['confirming'] and ['complete'] are never
    entered. *)
Theorem enhanced_search_never_requests (events : list EnhancedVoiceSession.Event) :
  EnhancedVoiceSession.pending (EnhancedVoiceSession.mounted events) = false
  /\ Forall (fun x => EnhancedVoiceSession.is_request x = false
                      /\ EnhancedVoiceSession.is_result x = false)
            (EnhancedVoiceSession.effects (EnhancedVoiceSession.mounted events))
  /\ EnhancedVoiceSearch.state
       (EnhancedVoiceSession.component (EnhancedVoiceSession.mounted events))
     <> EnhancedVoiceSearch.Confirming
  /\ EnhancedVoiceSearch.state
       (EnhancedVoiceSession.component (EnhancedVoiceSession.mounted events))
     <> EnhancedVoiceSearch.Complete.
Proof.
  assert (EnhancedVoiceSession.handlers (EnhancedVoiceSession.mounted events)
            = EnhancedVoiceSession.mount_render
          /\ EnhancedVoiceSession.pending (EnhancedVoiceSession.mounted events)
             = false
          /\ Forall (fun x => EnhancedVoiceSession.is_request x = false
                              /\ EnhancedVoiceSession.is_result x = false)
               (EnhancedVoiceSession.effects
                  (EnhancedVoiceSession.mounted events))
          /\ EnhancedVoiceSession.is_confirming
               (EnhancedVoiceSearch.state
                  (EnhancedVoiceSession.component
                     (EnhancedVoiceSession.mounted events))) = false
          /\ EnhancedVoiceSearch.state
               (EnhancedVoiceSession.component
                  (EnhancedVoiceSession.mounted events))
             <> EnhancedVoiceSearch.Complete) as (_ & H2 & H3 & H4 & H5).
  { unfold EnhancedVoiceSession.mounted.
    induction events as [|e events IH] using rev_ind.
    - cbn. repeat split; try done; constructor.
    - rewrite fold_left_app. cbn [fold_left].
      destruct IH as (H1 & H2 & H3 & H4 & H5).
      by apply enhanced_step_invariant. }
  repeat split; try done. intros H. by rewrite H in H4.
Qed.

(** X27.  In [EnhancedVoiceSearch], saying a confirmation phrase as part
    of a final result closes the dialog: the handler of the first render
    sets ['processing'], finds its own transcript empty and calls
    [onClose], however much was said before. *)
Theorem spoken_confirmation_closes_dialog
    (results : list VoiceSearch.SpeechRecognitionResult)
    (st : EnhancedVoiceSearch.Component) :
  EnhancedVoiceSession.checkConfirmationPhrase
    (EnhancedVoiceSession.finalTranscriptUpdate results) = true ->
  exists st',
    EnhancedVoiceSession.onresult EnhancedVoiceSession.mount_render results st
    = (st', [EnhancedVoiceSearch.onClose], false)
    /\ EnhancedVoiceSearch.state st' = EnhancedVoiceSearch.Processing
    /\ EnhancedVoiceSearch.finalTranscript st'
       = EnhancedVoiceSearch.finalTranscript st
         +:+ EnhancedVoiceSession.finalTranscriptUpdate results.
Proof.
  intros Hphrase. unfold EnhancedVoiceSession.onresult. rewrite Hphrase.
  destruct (String.eqb (EnhancedVoiceSession.finalTranscriptUpdate results) "")
    eqn:E.
  { apply String.eqb_eq in E. rewrite E in Hphrase. discriminate Hphrase. }
  cbn. eexists. split; [reflexivity|]. by split.
Qed.

Lemma spoken_confirmation_closes_dialog_witness :
  EnhancedVoiceSession.checkConfirmationPhrase
    (EnhancedVoiceSession.finalTranscriptUpdate EnhancedVoiceSession.lets_go)
  = true
  /\ (EnhancedVoiceSession.onresult EnhancedVoiceSession.mount_render
        EnhancedVoiceSession.lets_go EnhancedVoiceSession.mount_render).1.2
     = [EnhancedVoiceSearch.onClose].
Proof.
  split; [reflexivity|].
  destruct (spoken_confirmation_closes_dialog EnhancedVoiceSession.lets_go
              EnhancedVoiceSession.mount_render eq_refl) as (st' & H & _).
  rewrite H. reflexivity.
Defined.

End Closures.

(* ===================================================================== *)
(** * generateMockResults: one-sided and crossed price bounds             *)
(* ===================================================================== *)

Section MockBounds.
Import JS Types.
Local Open Scope Q_scope.

Lemma cap_below_floor lo v :
  ~ lo == 0 -> lo <= cap_below (Some lo) v.
Proof.
  intros Hlo. unfold cap_below. qzero lo; [done|]. cbn [negb andb].
  qcase lo v; cbn [negb]; lra.
Qed.

Lemma cap_below_crossed lo hi v :
  ~ lo == 0 -> ~ hi == 0 -> hi < lo ->
  cap_below (Some lo) (cap_above (Some hi) v) == lo.
Proof.
  intros Hlo Hhi Hlt. unfold cap_below, cap_above.
  qzero hi; [done|]. qzero lo; [done|]. cbn [negb andb].
  qcase v hi; cbn [negb].
  - qcase lo v; cbn [negb]; lra.
  - qcase lo hi; cbn [negb]; lra.
Qed.

(** X28.  A [priceMin] other than 0 is always respected by
    [generateMockResults], with or without a [priceMax] and for sales and
    rentals alike; when the two bounds cross ([priceMax < priceMin], both
    other than 0) every generated price is exactly [priceMin]. *)
Theorem price_floor_always_respected
    (params : SearchParams) (now : nat -> Q) (rnd : Randomness) (lo : Q)
    (p : Property) :
  priceMin params = Some lo -> ~ lo == 0 ->
  In p (generateMockResults params now rnd) ->
  lo <= price p
  /\ forall hi, priceMax params = Some hi -> ~ hi == 0 -> hi < lo ->
       price p == lo.
Proof.
  intros Hmin Hlo Hin. unfold generateMockResults in Hin.
  apply in_map_iff in Hin as (i & <- & _). cbn [price mockProperty].
  unfold priceValue, rentValue, saleValue. rewrite Hmin. split.
  - destruct (is_rental _); by apply cap_below_floor.
  - intros hi Hmax Hhi Hlt. rewrite Hmax.
    destruct (is_rental _); by apply cap_below_crossed.
Qed.

Lemma price_floor_always_respected_witness :
  priceMin suburb_budget = Some 500000 /\ ~ 500000 == 0
  /\ In (mockProperty suburb_budget clock all_half 0)
        (generateMockResults suburb_budget clock all_half)
  /\ 500000 <= price (mockProperty suburb_budget clock all_half 0).
Proof.
  assert (~ 500000 == 0) as Hne by lra.
  assert (In (mockProperty suburb_budget clock all_half 0)
             (generateMockResults suburb_budget clock all_half)) as Hin
    by (by left).
  split; [reflexivity|]. split; [exact Hne|]. split; [exact Hin|].
  exact (proj1 (price_floor_always_respected suburb_budget clock all_half
                  500000 _ eq_refl Hne Hin)).
Defined.

End MockBounds.
